(** * ID3C: de-identification hashing and identifier minting

    A shallow embedding of

    - [lib/id3c/cli/command/de_identify.py]: [generate_hash],
      [extract_fields_from_input] and the [de_identify] command;
    - [lib/seattleflu/api/datastore.py]: [make_identifier_set],
      [mint_identifiers] and the [catch_permission_denied] decorator;

    together with the properties the specification states about them.

    Python values are modelled as follows.  A [str] is the list of its
    Unicode code points; [bytes] is a list of octets; exceptions are the
    [Err] side of a [result]; the process environment is an association
    list; logging appends to an explicit log; database tables are lists of
    rows threaded through the calls. *)

From Stdlib Require Import String Ascii List NArith ZArith Bool Lia Sorted.
Import ListNotations.

Set Implicit Arguments.

(** ** Python strings and bytes *)

(** A Python [str]: the sequence of its code points. *)
Definition str := list N.

(** A Python [bytes] value: octets, each below 256. *)
Definition bytes := list N.

(** A literal with ASCII characters only, written as a Rocq string. *)
Definition py (s : string) : str :=
  map N_of_ascii (list_ascii_of_string s).

Definition str_eqb (a b : str) : bool :=
  if list_eq_dec N.eq_dec a b then true else false.

(** Membership test [c in l] on strings. *)
Definition str_mem (c : str) (l : list str) : bool := existsb (str_eqb c) l.

(** [sep.join(parts)]. *)
Fixpoint join (sep : str) (parts : list str) : str :=
  match parts with
  | [] => []
  | [p] => p
  | p :: rest => p ++ sep ++ join sep rest
  end.

(** ** Results and exceptions *)

Inductive result (E A : Type) : Type :=
| Ok (a : A)
| Err (e : E).

Arguments Ok {E A} a.
Arguments Err {E A} e.

Definition bind {E A B} (r : result E A) (k : A -> result E B) : result E B :=
  match r with
  | Ok a => k a
  | Err e => Err e
  end.

Notation "x <- r ;; k" := (bind r (fun x => k))
  (at level 61, r at next level, right associativity).

(** [mapM]: apply [f] to the elements in order; the first exception
    raised stops the traversal and propagates. *)
Fixpoint mapM {E A B} (f : A -> result E B) (l : list A) : result E (list B) :=
  match l with
  | [] => Ok []
  | a :: rest =>
      b <- f a ;;
      bs <- mapM f rest ;;
      Ok (b :: bs)
  end.

(** ** UTF-8: [str.encode("utf-8")] *)

Module Utf8.

Local Open Scope N_scope.

Definition continuation (c : N) (shift : N) : N :=
  N.lor 0x80 (N.land (N.shiftr c shift) 0x3F).

(** The octets of one code point.  Surrogates (U+D800..U+DFFF) have no
    UTF-8 form: Python raises [UnicodeEncodeError] for them.  Nothing
    above U+10FFFF is a code point. *)
Definition encode_char (c : N) : option bytes :=
  if c <? 0x80 then Some [c]
  else if c <? 0x800 then
    Some [N.lor 0xC0 (N.shiftr c 6); continuation c 0]
  else if c <? 0x10000 then
    if (0xD800 <=? c) && (c <=? 0xDFFF) then None
    else Some [N.lor 0xE0 (N.shiftr c 12); continuation c 6; continuation c 0]
  else if c <? 0x110000 then
    Some [N.lor 0xF0 (N.shiftr c 18); continuation c 12;
          continuation c 6; continuation c 0]
  else None.

Fixpoint encode (s : str) : option bytes :=
  match s with
  | [] => Some []
  | c :: rest =>
      match encode_char c, encode rest with
      | Some b, Some bs => Some (b ++ bs)
      | _, _ => None
      end
  end.

End Utf8.

(** ** SHA-256 (FIPS 180-4), the digest behind [hashlib.sha256] *)

Module Sha256.

Local Open Scope N_scope.

Definition mask32 : N := 0xFFFFFFFF.

Definition add32 (x y : N) : N := (x + y) mod 0x100000000.

Definition rotr (n x : N) : N :=
  N.lor (N.shiftr x n) (N.land (N.shiftl x (32 - n)) mask32).

Definition shr (n x : N) : N := N.shiftr x n.

Definition not32 (x : N) : N := N.lxor x mask32.

Definition Ch (x y z : N) : N :=
  N.lxor (N.land x y) (N.land (not32 x) z).

Definition Maj (x y z : N) : N :=
  N.lxor (N.lxor (N.land x y) (N.land x z)) (N.land y z).

Definition Sigma0 (x : N) : N :=
  N.lxor (N.lxor (rotr 2 x) (rotr 13 x)) (rotr 22 x).

Definition Sigma1 (x : N) : N :=
  N.lxor (N.lxor (rotr 6 x) (rotr 11 x)) (rotr 25 x).

Definition sigma0 (x : N) : N :=
  N.lxor (N.lxor (rotr 7 x) (rotr 18 x)) (shr 3 x).

Definition sigma1 (x : N) : N :=
  N.lxor (N.lxor (rotr 17 x) (rotr 19 x)) (shr 10 x).

(** The constants are defined as FIPS 180-4 defines them: the first 32
    bits of the fractional parts of the cube roots (round constants) and
    square roots (initial hash value) of the first primes. *)
Definition is_prime (n : N) : bool :=
  (1 <? n)
  && forallb (fun d => negb (n mod d =? 0))
             (map N.of_nat (seq 2 (N.to_nat (N.sqrt n) - 1))).

Definition primes : list N :=
  Eval vm_compute in filter is_prime (map N.of_nat (seq 2 310)).

(** The integer part of the [k]-th root of [x], found bit by bit from
    bit [bits - 1] down. *)
Fixpoint root_from (k : N) (bits : nat) (x r : N) : N :=
  match bits with
  | O => r
  | S bits' =>
      let r' := r + 2 ^ N.of_nat bits' in
      root_from k bits' x (if r' ^ k <=? x then r' else r)
  end.

Definition root_fraction (k p : N) : N :=
  root_from k 40 (p * 2 ^ (32 * k)) 0 mod 2 ^ 32.

Definition K : list N :=
  Eval vm_compute in map (root_fraction 3) primes.

(** The eight working variables, and also the running hash value. *)
Record regs : Type := Regs {
  ra : N; rb : N; rc : N; rd : N; re : N; rf : N; rg : N; rh : N
}.

Definition regs_of (l : list N) : regs :=
  Regs (nth 0 l 0) (nth 1 l 0) (nth 2 l 0) (nth 3 l 0)
       (nth 4 l 0) (nth 5 l 0) (nth 6 l 0) (nth 7 l 0).

Definition H0 : regs :=
  Eval vm_compute in regs_of (map (root_fraction 2) (firstn 8 primes)).

(** Padding: a one bit, zero bits up to 56 modulo 64 octets, then the
    message length in bits as a 64-bit big-endian integer. *)
Fixpoint be_bytes (width : nat) (x : N) : bytes :=
  match width with
  | O => []
  | S w => N.land (N.shiftr x (8 * N.of_nat w)) 0xFF :: be_bytes w x
  end.

Definition pad (msg : bytes) : bytes :=
  let len := N.of_nat (length msg) in
  let zeros := N.to_nat ((64 - (len + 9) mod 64) mod 64) in
  msg ++ 0x80 :: repeat 0 zeros ++ be_bytes 8 ((8 * len) mod 2 ^ 64).

(** Big-endian 32-bit words of an octet string. *)
Fixpoint words (bs : bytes) : list N :=
  match bs with
  | b0 :: b1 :: b2 :: b3 :: rest =>
      (N.shiftl b0 24 + N.shiftl b1 16 + N.shiftl b2 8 + b3) :: words rest
  | _ => []
  end.

(** Blocks of sixteen words; [fuel] bounds the number of blocks. *)
Fixpoint blocks (fuel : nat) (ws : list N) : list (list N) :=
  match fuel, ws with
  | O, _ => []
  | _, [] => []
  | S fuel', _ => firstn 16 ws :: blocks fuel' (skipn 16 ws)
  end.

(** Message schedule.  [rev_w] holds W(t-1), W(t-2), ... most recent
    first; each step prepends W(t). *)
Fixpoint schedule (steps : nat) (rev_w : list N) : list N :=
  match steps with
  | O => rev_w
  | S steps' =>
      let w :=
        add32 (add32 (sigma1 (nth 1 rev_w 0)) (nth 6 rev_w 0))
              (add32 (sigma0 (nth 14 rev_w 0)) (nth 15 rev_w 0)) in
      schedule steps' (w :: rev_w)
  end.

Definition round (s : regs) (kw : N * N) : regs :=
  let (k, w) := kw in
  let t1 := add32 (add32 (add32 (rh s) (Sigma1 (re s)))
                         (add32 (Ch (re s) (rf s) (rg s)) k)) w in
  let t2 := add32 (Sigma0 (ra s)) (Maj (ra s) (rb s) (rc s)) in
  Regs (add32 t1 t2) (ra s) (rb s) (rc s) (add32 (rd s) t1) (re s) (rf s) (rg s).

Definition compress (h : regs) (block : list N) : regs :=
  let w := rev (schedule 48 (rev block)) in
  let s := fold_left round (combine K w) h in
  Regs (add32 (ra h) (ra s)) (add32 (rb h) (rb s))
       (add32 (rc h) (rc s)) (add32 (rd h) (rd s))
       (add32 (re h) (re s)) (add32 (rf h) (rf s))
       (add32 (rg h) (rg s)) (add32 (rh h) (rh s)).

Definition regs_bytes (h : regs) : bytes :=
  flat_map (be_bytes 4)
    [ra h; rb h; rc h; rd h; re h; rf h; rg h; rh h].

(** The 32-octet digest of a message. *)
Definition digest (msg : bytes) : bytes :=
  let ws := words (pad msg) in
  regs_bytes (fold_left compress (blocks (length ws) ws) H0).

End Sha256.

(** Lowercase hexadecimal, as [bytes.hex()] and [hexdigest()] print it. *)
Definition hex_digit (d : N) : N :=
  (if d <? 10 then 48 + d else 87 + d)%N.

Definition hex (bs : bytes) : str :=
  flat_map (fun b => [hex_digit (N.shiftr b 4); hex_digit (N.land b 0xF)])%N bs.

(** An octet is below 256. *)
Definition octet (b : N) : Prop := (b < 256)%N.

(** The characters [0-9a-f]. *)
Definition lower_hex_char (c : N) : Prop :=
  (48 <= c <= 57)%N \/ (97 <= c <= 102)%N.

(** A [hashlib.sha256()] object: the octets fed to it so far. *)
Module Hashlib.

Record sha256_t : Type := Sha256Obj { fed : bytes }.

Definition sha256 : sha256_t := Sha256Obj [].

Definition update (h : sha256_t) (data : bytes) : sha256_t :=
  Sha256Obj (fed h ++ data).

Definition hexdigest (h : sha256_t) : str :=
  hex (Sha256.digest (fed h)).

End Hashlib.


(** ** [lib/id3c/cli/command/de_identify.py] *)

Module DeIdentify.

(** The exceptions this module raises or lets through. *)
Inductive exn : Type :=
| Exception (msg : string)
| AssertionError (msg : string)
| UnicodeEncodeError
| KeyError (labels : list str)
| AttributeError.

(** [os.environ]. *)
Definition environ_t := list (str * str).

Fixpoint environ_get (environ : environ_t) (key : str) : option str :=
  match environ with
  | [] => None
  | (k, v) :: rest => if str_eqb k key then Some v else environ_get rest key
  end.

(** [s.encode("utf-8")]. *)
Definition encode_utf8 (s : str) : result exn bytes :=
  match Utf8.encode s with
  | Some b => Ok b
  | None => Err UnicodeEncodeError
  end.

(** [assert cond, msg]. *)
Definition assert (cond : bool) (msg : string) : result exn unit :=
  if cond then Ok tt else Err (AssertionError msg).

(** [generate_hash(identifier, secret = None)]. *)
Definition generate_hash (environ : environ_t)
    (identifier : str) (secret : option str) : result exn str :=
  secret <- match secret with
            | None =>
                match environ_get environ (py "ID3C_DEIDENTIFY_SECRET") with
                | Some s => Ok s
                | None =>
                    Err (Exception
                      "The environment variable ID3C_DEIDENTIFY_SECRET is required.")
                end
            | Some s => Ok s
            end ;;
  _ <- assert (0 <? length identifier)%nat "Empty *identifier* provided!" ;;
  _ <- assert (0 <? length secret)%nat "Empty *secret* provided!" ;;
  let new_hash := Hashlib.sha256 in
  data <- encode_utf8 identifier ;;
  let new_hash := Hashlib.update new_hash data in
  data <- encode_utf8 secret ;;
  let new_hash := Hashlib.update new_hash data in
  Ok (Hashlib.hexdigest new_hash).

(** A [pandas.DataFrame], row by row: the column labels and, for each
    row, one cell per column.  Frames read by
    [load_input_from_file_or_stdin] hold strings only
    ([dtype = "string"], [na_filter = False]). *)
Record DataFrame (A : Type) : Type := Frame {
  columns : list str;
  rows : list (list A)
}.

(** What pandas guarantees of a frame it has read: distinct labels and
    one cell per label in every row. *)
Definition well_formed {A} (df : DataFrame A) : Prop :=
  NoDup (columns df) /\
  Forall (fun r => length r = length (columns df)) (rows df).

Fixpoint position (label : str) (labels : list str) : option nat :=
  match labels with
  | [] => None
  | l :: rest =>
      if str_eqb l label then Some O
      else option_map S (position label rest)
  end.

(** The cell of [row] under [label]: a row seen as a record. *)
Definition row_get {A} (labels : list str) (row : list A) (label : str)
    : option A :=
  match position label labels with
  | Some p => nth_error row p
  | None => None
  end.

Definition cells {A} (o : option A) : list A :=
  match o with
  | Some a => [a]
  | None => []
  end.

(** [df[labels]]: the listed columns in the listed order; [KeyError]
    names the labels that are not columns of [df]. *)
Definition getitem {A} (df : DataFrame A) (labels : list str)
    : result exn (DataFrame A) :=
  match filter (fun l => negb (str_mem l (columns df))) labels with
  | [] =>
      Ok (Frame labels
            (map (fun r => flat_map (fun l => cells (row_get (columns df) r l))
                                    labels)
                 (rows df)))
  | missing => Err (KeyError missing)
  end.

(** [df.apply(f, axis=1)]: [f] on every row, giving a Series. *)
Definition apply_rows {A B} (f : list A -> B) (df : DataFrame A) : list B :=
  map f (rows df).

(** [df.copy()], the cells seen as optional values. *)
Definition copy {A} (df : DataFrame A) : DataFrame (option A) :=
  Frame (columns df) (map (map (@Some A)) (rows df)).

Fixpoint replace_at {A} (p : nat) (v : A) (r : list A) : list A :=
  match p, r with
  | _, [] => []
  | O, _ :: rest => v :: rest
  | S p', a :: rest => a :: replace_at p' v rest
  end.

(** [df[label] = series]: overwrite the column when the label exists,
    add it as the last column otherwise. *)
Definition setitem {A} (df : DataFrame A) (label : str) (series : list A)
    : DataFrame A :=
  match position label (columns df) with
  | Some p =>
      Frame (columns df)
            (map (fun rv => replace_at p (snd rv) (fst rv))
                 (combine (rows df) series))
  | None =>
      Frame (columns df ++ [label])
            (map (fun rv => fst rv ++ [snd rv]) (combine (rows df) series))
  end.

(** [df.drop(columns = labels, inplace = True)]. *)
Definition drop {A} (df : DataFrame A) (labels : list str)
    : result exn (DataFrame A) :=
  match filter (fun l => negb (str_mem l (columns df))) labels with
  | [] =>
      Ok (Frame (filter (fun l => negb (str_mem l labels)) (columns df))
            (map (fun r =>
                    map snd (filter (fun lv => negb (str_mem (fst lv) labels))
                                    (combine (columns df) r)))
                 (rows df)))
  | missing => Err (KeyError missing)
  end.

(** [LOG.error(...)] records: the formatted exception and the column
    listing printed after it. *)
Inductive log_record : Type :=
| ErrorInputColumns (error : exn) (input_columns : list str)
| ErrorColumns (error : exn) (output_columns : list str).

(** [extract_fields_from_input(input_df, columns)]. *)
Definition extract_fields_from_input (input_df : DataFrame str)
    (columns_ : list str) : result exn (DataFrame str) * list log_record :=
  match getitem input_df columns_ with
  | Ok fields => (Ok fields, [])
  | Err error =>
      (Err error, [ErrorInputColumns error (columns input_df)])
  end.

(** Line 58: the selected cells of each row joined with one space. *)
Definition joined_fields (fields_to_include : DataFrame str) : list str :=
  apply_rows (fun x => join (py " ") x) fields_to_include.

(** The function mapped over the joined values on line 60:
    [lambda x: generate_hash(x) if x else None]. *)
Definition hash_or_none (environ : environ_t) (x : str)
    : result exn (option str) :=
  match x with
  | [] => Ok None
  | _ => h <- generate_hash environ x None ;; Ok (Some h)
  end.

(** What [fields.apply(lambda x: ' '.join(x), axis=1)] hands back: the
    Series of the joined values, or a frame.  On a frame without rows
    pandas does not call the function on rows: it probes it once with a
    row of NaN cells under the frame's labels, and returns a copy of the
    frame when the probe raises, which [' '.join] does as soon as there
    is one cell to join. *)
Inductive applied : Type :=
| AppliedSeries (values : list str)
| AppliedFrame (frame : DataFrame str).

Definition apply_join (fields_to_include : DataFrame str) : applied :=
  match rows fields_to_include, columns fields_to_include with
  | [], _ :: _ => AppliedFrame fields_to_include
  | _, _ => AppliedSeries (joined_fields fields_to_include)
  end.

(** [de_identify(columns, filename, drop_input_columns)], from the
    loaded [input_df] to the frame written to stdout.  A frame has no
    [map]: line 60 raises [AttributeError] when line 58 returned one. *)
Definition de_identify (environ : environ_t) (columns_ : list str)
    (input_df : DataFrame str) (drop_input_columns : bool)
    : result exn (DataFrame (option str)) * list log_record :=
  match extract_fields_from_input input_df columns_ with
  | (Err error, log) => (Err error, log)
  | (Ok fields_to_include, log) =>
      match apply_join fields_to_include with
      | AppliedFrame _ => (Err AttributeError, log)
      | AppliedSeries joined =>
          match mapM (hash_or_none environ) joined with
          | Err error => (Err error, log)
          | Ok hashes =>
              let output_df := setitem (copy input_df) (py "hash") hashes in
              if drop_input_columns then
                match drop output_df columns_ with
                | Ok dropped => (Ok dropped, log)
                | Err error =>
                    (Err error,
                     log ++ [ErrorColumns error (columns output_df)])
                end
              else (Ok output_df, log)
          end
      end
  end.

(** The values of a row, seen as a record, under the given field
    names and in their order. *)
Definition record_values {A} (labels : list str) (row : list A)
    (fields : list str) (values : list A) : Prop :=
  Forall2 (fun c v => row_get labels row c = Some v) fields values.

(** The hash cell of a row whose joined value is [x]: null for the
    empty string, otherwise what [generate_hash(x)] returns. *)
Definition hashed_as (environ : environ_t) (x : str) (cell : option str)
    : Prop :=
  (x = [] /\ cell = None)
  \/ (x <> [] /\
      exists h, cell = Some h /\ generate_hash environ x None = Ok h).

End DeIdentify.

(** ** The database layer behind [lib/seattleflu/api/datastore.py] *)

Module Db.

(** Exceptions of the database layer, as [datastore.py] names them:
    psycopg2's [InsufficientPrivilege] and the two errors of
    [db.mint_identifiers].  Modelled from the spec: the classes are not
    part of the sources; [TooManyFailuresError] carries the number of
    identifiers minted before the failure (section 4.2). *)
Inductive exn : Type :=
| InsufficientPrivilege
| IdentifierSetNotFoundError (name : str)
| TooManyFailuresError (minted : nat).

(** Rows of [warehouse.identifier_set] and [warehouse.identifier]. *)
Record identifier_set_row : Type := SetRow {
  set_name : str;
  set_description : option str
}.

Record identifier_row : Type := IdRow {
  id_set : str;
  id_value : str
}.

(** Modelled from the spec: the [DatabaseSession] class of
    [db/session.py] is not part of the sources; a session is taken to
    be the committed contents of the two tables the identifier
    functions read and write. *)
Record DatabaseSession : Type := Session {
  identifier_set : list identifier_set_row;
  identifier : list identifier_row
}.

(** Modelled from the spec: the Persistent Identifier Store contract of
    section 4.1, which the minter consumes.  [insertIdentifier] is one
    atomic unit: it returns the store after the attempt. *)
Class IdentifierStore (S : Type) : Type := {
  setExists : S -> str -> bool;
  insertIdentifier : S -> str -> str -> result exn bool * S
}.

Definition has_set (s : DatabaseSession) (name : str) : bool :=
  existsb (fun r => str_eqb (set_name r) name) (identifier_set s).

Definition has_value (s : DatabaseSession) (value : str) : bool :=
  existsb (fun r => str_eqb (id_value r) value) (identifier s).

(** Modelled from the spec: [insertIdentifier] on the tables.  It fails
    with the not-found error for an unknown set, reports a collision
    when the value already exists, and otherwise commits one new row. *)
Definition insert_identifier (s : DatabaseSession) (setName candidate : str)
    : result exn bool * DatabaseSession :=
  if negb (has_set s setName) then
    (Err (IdentifierSetNotFoundError setName), s)
  else if has_value s candidate then (Ok false, s)
  else
    (Ok true,
     Session (identifier_set s) (identifier s ++ [IdRow setName candidate])).

#[export] Instance table_store : IdentifierStore DatabaseSession := {
  setExists := has_set;
  insertIdentifier := insert_identifier
}.

(** Modelled from the spec: the always-collision stub of section 8, a
    store that rejects every insert attempt; it counts the attempts it
    has seen. *)
Record colliding_store : Type := Colliding { attempts : nat }.

#[export] Instance always_collision : IdentifierStore colliding_store := {
  setExists := fun _ _ => true;
  insertIdentifier := fun s _ _ => (Ok false, Colliding (S (attempts s)))
}.

Section Minter.

Context {S : Type} {store : IdentifierStore S}.

(** The configured consecutive-failure bound. *)
Variable max_failures : nat.

(** The random source: [candidate k] is the value of the k-th draw.
    The minter threads the number of draws made so far. *)
Variable candidate : nat -> str.

(** The outcome of minting one identifier. *)
Inductive attempt_result : Type :=
| Minted (value : str)
| Exhausted
| Raised (e : exn).

(** Modelled from the spec: the retry loop of section 4.2 for one
    identifier.  [budget] is the bound minus the consecutive-failure
    counter; every round draws a fresh candidate and attempts one
    insert; a collision uses up one unit of the budget, and the
    counter has reached the bound when none is left. *)
Fixpoint mint_one (budget : nat) (name : str) (st : S) (drawn : nat)
    : attempt_result * (S * nat) :=
  match budget with
  | O => (Exhausted, (st, drawn))
  | Datatypes.S budget' =>
      let c := candidate drawn in
      match insertIdentifier st name c with
      | (Ok true, st') => (Minted c, (st', Datatypes.S drawn))
      | (Ok false, st') => mint_one budget' name st' (Datatypes.S drawn)
      | (Err e, st') => (Raised e, (st', Datatypes.S drawn))
      end
  end.

(** Modelled from the spec: the outer loop, one round per requested
    identifier, with the failure counter reset for each. *)
Fixpoint mint_loop (n : nat) (name : str) (minted : list str)
    (st : S) (drawn : nat) : result exn (list str) * (S * nat) :=
  match n with
  | O => (Ok minted, (st, drawn))
  | Datatypes.S n' =>
      match mint_one max_failures name st drawn with
      | (Minted v, (st', drawn')) =>
          mint_loop n' name (minted ++ [v]) st' drawn'
      | (Exhausted, (st', drawn')) =>
          (Err (TooManyFailuresError (length minted)), (st', drawn'))
      | (Raised e, (st', drawn')) => (Err e, (st', drawn'))
      end
  end.

(** Modelled from the spec: [db.mint_identifiers(session, name, n)],
    which is not part of the sources (section 4.2): the set is
    looked up first, then [n] identifiers are minted. *)
Definition mint_identifiers (st : S) (drawn : nat) (name : str) (n : Z)
    : result exn (list str) * (S * nat) :=
  if setExists st name then mint_loop (Z.to_nat n) name [] st drawn
  else (Err (IdentifierSetNotFoundError name), (st, drawn)).

End Minter.

(** What a run of the minting loop on the tables has done when it has
    committed the values [new], starting from session [st] after
    [drawn] draws and ending in [st'] after [drawn'] draws: the sets are
    untouched, the new rows follow the old ones in the order minted,
    the values are distinct, none was in the table before, and they are
    draws of the source taken in increasing order. *)
Record loop_facts (candidate : nat -> str) (name : str)
    (st : DatabaseSession) (drawn : nat) (new : list str)
    (st' : DatabaseSession) (drawn' : nat) : Prop := LoopFacts {
  facts_drawn : (drawn <= drawn')%nat;
  facts_sets : identifier_set st' = identifier_set st;
  facts_rows : identifier st' = identifier st ++ map (IdRow name) new;
  facts_nodup : NoDup new;
  facts_fresh : forall v, In v new -> has_value st v = false;
  facts_order :
    exists idxs,
      new = map candidate idxs
      /\ StronglySorted lt idxs
      /\ Forall (fun i => (drawn <= i < drawn')%nat) idxs
}.

(** What the database lets the role of a session do with
    [warehouse.identifier_set]: the privileges PostgreSQL checks before
    it runs a statement of [datastore.py].  A statement the role may not
    run raises psycopg2's [InsufficientPrivilege], the exception the
    [catch_permission_denied] decorator catches, and changes nothing.
    The role belongs to the [DatabaseSession]; it is kept as a record of
    its own, next to the tables. *)
Record grants : Type := Grants {
  may_select_sets : bool;
  may_insert_sets : bool
}.

End Db.

(** ** [lib/seattleflu/api/datastore.py] *)

Module Datastore.

Import Db.

(** What a datastore function can raise: a database-layer exception it
    does not handle, or one of the werkzeug exceptions, whose
    description is [str(error)] of the exception it replaces. *)
Inductive exn : Type :=
| DbError (error : Db.exn)
| NotFound (description : Db.exn)
| ServiceUnavailable (description : Db.exn)
| Forbidden.

(** The [catch_permission_denied] decorator, on the outcome of the
    decorated call. *)
Definition catch_permission_denied {A St} (outcome : result exn A * St)
    : result exn A * St :=
  match outcome with
  | (Err (DbError InsufficientPrivilege), st) => (Err Forbidden, st)
  | _ => outcome
  end.

Section Mint.

Context {S : Type} {store : IdentifierStore S}.
Variable max_failures : nat.
Variable candidate : nat -> str.

(** [mint_identifiers(session, name, n)]: the two errors of the
    database layer become [NotFound] and [ServiceUnavailable]. *)
Definition mint_identifiers (session : S) (drawn : nat) (name : str)
    (n : Z) : result exn (list str) * (S * nat) :=
  catch_permission_denied
    (match Db.mint_identifiers max_failures candidate session drawn name n with
     | (Ok minted, after) => (Ok minted, after)
     | (Err (IdentifierSetNotFoundError _ as error), after) =>
         (Err (NotFound error), after)
     | (Err (TooManyFailuresError _ as error), after) =>
         (Err (ServiceUnavailable error), after)
     | (Err error, after) => (Err (DbError error), after)
     end).

End Mint.

End Datastore.

(** ** [lib/seattleflu/api/datastore.py]: identifier sets *)

Module IdentifierSets.

Import Db.

(** What the lookups raise: werkzeug's [NotFound] with its description,
    [Forbidden] from the decorator, or a database exception passed on. *)
Inductive exn : Type :=
| DbError (error : Db.exn)
| NotFound (description : str)
| Forbidden.

(** [LOG.error(...)]: the decorator's ["Forbidden: %s"] with the
    database error, and the message of a failed lookup. *)
Inductive log_record : Type :=
| LogErrorForbidden (error : Db.exn)
| LogError (msg : str).

(** The [catch_permission_denied] decorator: it logs the refusal and
    raises [Forbidden] in its place. *)
Definition catch_permission_denied {A}
    (outcome : result exn A * list log_record)
    : result exn A * list log_record :=
  match outcome with
  | (Err (DbError InsufficientPrivilege), log) =>
      (Err Forbidden, log ++ [LogErrorForbidden InsufficientPrivilege])
  | _ => outcome
  end.

(** [fetch_identifier_sets(session)]: every row of
    [warehouse.identifier_set], for a role that may read it. *)
Definition fetch_identifier_sets (role : grants) (session : DatabaseSession)
    : result exn (list identifier_set_row) * list log_record :=
  catch_permission_denied
    (if may_select_sets role then (Ok (identifier_set session), [])
     else (Err (DbError InsufficientPrivilege), [])).

(** [session.fetch_row(...)] for [select ... where name = %s]: the first
    row with the name, [None] when there is none. *)
Definition fetch_row_by_name (session : DatabaseSession) (name : str)
    : option identifier_set_row :=
  find (fun r => str_eqb (set_name r) name) (identifier_set session).

(** The message [f"Identifier set «{name}» not found"]. *)
Definition not_found_message (name : str) : str :=
  (py "Identifier set " ++ [0xAB] ++ name ++ [0xBB] ++ py " not found")%N.

(** [fetch_identifier_set(session, name)]. *)
Definition fetch_identifier_set (role : grants) (session : DatabaseSession)
    (name : str) : result exn identifier_set_row * list log_record :=
  catch_permission_denied
    (if may_select_sets role then
       match fetch_row_by_name session name with
       | None =>
           (Err (NotFound (not_found_message name)),
            [LogError (not_found_message name)])
       | Some set => (Ok set, [])
       end
     else (Err (DbError InsufficientPrivilege), [])).

(** [insert into warehouse.identifier_set (name) values (%s)
     on conflict (name) do nothing], run for a role with the given
    grants: the row count and the table, or the database's refusal. *)
Definition insert_identifier_set (role : grants) (session : DatabaseSession)
    (name : str) : result Db.exn nat * DatabaseSession :=
  if negb (may_insert_sets role) then (Err InsufficientPrivilege, session)
  else if has_set session name then (Ok O, session)
  else
    (Ok 1%nat,
     Session (identifier_set session ++ [SetRow name None])
             (identifier session)).

(** [make_identifier_set(session, name)], for a session whose role has
    the given grants: what the decorated call returns or raises, what it
    logs, and the tables it leaves. *)
Definition make_identifier_set (role : grants) (session : DatabaseSession)
    (name : str)
    : (result exn bool * list log_record) * DatabaseSession :=
  match insert_identifier_set role session name with
  | (inserted, session') =>
      (catch_permission_denied
         (match inserted with
          | Ok rowcount => (Ok (Nat.eqb rowcount 1), [])
          | Err error => (Err (DbError error), [])
          end),
       session')
  end.

End IdentifierSets.

(** ** [lib/seattleflu/api/datastore.py]: [store_scan] *)

Module Scans.

(** The diagnostics of a psycopg2 error that the JSON response shows. *)
Record diag_t : Type := Diag {
  message_primary : option str;
  message_detail : option str;
  context : option str
}.

(** The psycopg2 exceptions the module tells apart. *)
Inductive pg_error : Type :=
| DataError (diag : diag_t)
| IntegrityError (diag : diag_t)
| InsufficientPrivilege (diag : diag_t)
| OtherDatabaseError (diag : diag_t).

Section StoreScan.

(** A value decoded from the JSON document, with Python's truth value
    and iteration: [iterate v] is [None] when [v] cannot be iterated
    ([TypeError]). *)
Variable value : Type.
Variable truthy : value -> bool.
Variable iterate : value -> option (list value).

(** The database as the session sees it, the statements [store_scan]
    executes, and what leaving the [with session] block does on a normal
    exit and on an exception; the [DatabaseSession] class is not part of
    the sources. *)
Variable DB : Type.

Inductive statement : Type :=
| InsertCollection (collection_barcode : value)
| InsertScanSetAndSample (sample_barcode : value)
    (collection_barcode : option value)
| InsertAliquot (aliquot_barcode sample_barcode : value).

Variable execute : DB -> statement -> result pg_error DB.
Variable exit_normally : DB -> DB.
Variable exit_with_exception : DB -> DB.

Inductive exn : Type :=
| BadRequest (description : str)
| BadRequestDatabaseError (error extra_detail extra_context : option str)
| Forbidden
| TypeError
| DatabaseError (error : pg_error).

(** A [dict] with string keys, in insertion order. *)
Definition dict := list (str * value).

Fixpoint dict_get (d : dict) (key : str) : option value :=
  match d with
  | [] => None
  | (k, v) :: rest => if str_eqb k key then Some v else dict_get rest key
  end.

(** [f"Required field {error} is missing from the scan document"], where
    [error] is the [KeyError] for [key]. *)
Definition missing_field_message (key : str) : str :=
  py "Required field '" ++ key ++ py "' is missing from the scan document".

(** [except (DataError, IntegrityError) as error:
     raise BadRequestDatabaseError(error)]; any other database error is
    not caught there. *)
Definition translate (error : pg_error) : exn :=
  match error with
  | DataError d | IntegrityError d =>
      BadRequestDatabaseError (message_primary d) (message_detail d) (context d)
  | _ => DatabaseError error
  end.

(** The [for aliquot in aliquots] loop: the database reached and, when a
    statement failed, the error. *)
Fixpoint insert_aliquots (db : DB) (aliquots : list value) (sample : value)
    : option pg_error * DB :=
  match aliquots with
  | [] => (None, db)
  | aliquot :: rest =>
      match execute db (InsertAliquot aliquot sample) with
      | Ok db' => insert_aliquots db' rest sample
      | Err error => (Some error, db)
      end
  end.

(** The body of the [with session, session.cursor() as cursor] block. *)
Definition store_scan_body (db : DB) (collection sample aliquots : value)
    : option exn * DB :=
  match (if truthy collection
         then execute db (InsertCollection collection)
         else Ok db) with
  | Err error => (Some (translate error), db)
  | Ok db1 =>
      match execute db1
              (InsertScanSetAndSample sample
                 (if truthy collection then Some collection else None)) with
      | Err error => (Some (translate error), db1)
      | Ok db2 =>
          match iterate aliquots with
          | None => (Some TypeError, db2)
          | Some items =>
              match insert_aliquots db2 items sample with
              | (Some error, db3) => (Some (translate error), db3)
              | (None, db3) => (None, db3)
              end
          end
      end
  end.

(** The [catch_permission_denied] decorator. *)
Definition catch_permission_denied (outcome : option exn * DB)
    : option exn * DB :=
  match outcome with
  | (Some (DatabaseError (InsufficientPrivilege _)), db) => (Some Forbidden, db)
  | _ => outcome
  end.

(** [store_scan(session, scan)]: the exception raised, if any, and the
    database afterwards. *)
Definition store_scan (db : DB) (scan : dict) : option exn * DB :=
  catch_permission_denied
    (match dict_get scan (py "collection") with
     | None => (Some (BadRequest (missing_field_message (py "collection"))), db)
     | Some collection =>
         match dict_get scan (py "sample") with
         | None => (Some (BadRequest (missing_field_message (py "sample"))), db)
         | Some sample =>
             match dict_get scan (py "aliquots") with
             | None =>
                 (Some (BadRequest (missing_field_message (py "aliquots"))), db)
             | Some aliquots =>
                 match store_scan_body db collection sample aliquots with
                 | (None, db') => (None, exit_normally db')
                 | (Some error, db') => (Some error, exit_with_exception db')
                 end
             end
         end
     end).

(** The statements a scan asks for before the aliquots are looked at:
    the collection when there is one, then the scan set and sample. *)
Definition leading_statements (collection sample : value) : list statement :=
  (if truthy collection then [InsertCollection collection] else [])
  ++ [InsertScanSetAndSample sample
        (if truthy collection then Some collection else None)].

(** Statements run one after the other until one fails: the error of
    the first failure, if any, and the database reached. *)
Fixpoint run_statements (db : DB) (statements : list statement)
    : option pg_error * DB :=
  match statements with
  | [] => (None, db)
  | st :: rest =>
      match execute db st with
      | Ok db' => run_statements db' rest
      | Err error => (Some error, db)
      end
  end.

(** What the caller of [store_scan] gets for a database error:
    [BadRequestDatabaseError] with the diagnostics for a [DataError] or
    an [IntegrityError], [Forbidden] for [InsufficientPrivilege], the
    error itself otherwise. *)
Definition surfaced (error : pg_error) : exn :=
  match error with
  | DataError d | IntegrityError d =>
      BadRequestDatabaseError (message_primary d) (message_detail d) (context d)
  | InsufficientPrivilege _ => Forbidden
  | OtherDatabaseError _ => DatabaseError error
  end.

End StoreScan.

End Scans.

(** ** [lib/id3c/cli/io/pandas.py]: choosing how to read the input *)

Module PandasIO.

(** [s.endswith(suffix)]. *)
Definition endswith (s suffix : str) : bool :=
  str_eqb (skipn (length s - length suffix) s) suffix.

(** [s.endswith((suffix, ...))]. *)
Definition endswith_any (s : str) (suffixes : list str) : bool :=
  existsb (endswith s) suffixes.

(** What is handed to pandas: a path, or the open file object. *)
Inductive source : Type :=
| Path (filename : str)
| FileObject (name : str).

(** The pandas reader called, with the arguments that vary: [sep] for
    [pd.read_csv] ([None] when the call leaves it to pandas' default, the
    comma), and the repository's [read_excel] wrapper for Excel files. *)
Inductive read_call : Type :=
| ReadCsv (src : source) (sep : option str)
| ReadExcel (io : str).

Inductive exn : Type :=
| UnsupportedFileExtensionError (filename : str).

Definition tab : str := [9%N].
Definition comma : str := py ",".

(** [load_file_as_dataframe(filename)]. *)
Definition load_file_as_dataframe (filename : str) : result exn read_call :=
  let supported_extensions := [py ".csv"; py ".tsv"; py ".xls"; py ".xlsx"] in
  if negb (endswith_any filename supported_extensions) then
    Err (UnsupportedFileExtensionError filename)
  else if endswith_any filename [py ".csv"; py ".tsv"] then
    let separator := if endswith filename (py ".tsv") then tab else comma in
    Ok (ReadCsv (Path filename) (Some separator))
  else Ok (ReadExcel filename).

(** [load_input_from_file_or_stdin(filename)], for the [click.File]
    whose [name] is given. *)
Definition load_input_from_file_or_stdin (name : str) : result exn read_call :=
  if str_eqb name (py "<stdin>") then Ok (ReadCsv (FileObject name) None)
  else load_file_as_dataframe name.

End PandasIO.

(** ** [lib/id3c/cli/command/__init__.py] and
       [lib/seattleflu/db/cli/command/consensus_genome.py] *)

Module Command.

(** What the wrappers do to the session and the terminal, in order. *)
Inductive event (E : Type) : Type :=
| LogErrorAborting (error : E)
| LogInfoCopying (file_name : str)
| LogInfoReceived (row_count : nat)
| LogInfo (msg : string)
| Confirm (question : string)
| DbCommit
| DbRollback.

Arguments LogErrorAborting {E} error.
Arguments LogInfoCopying {E} file_name.
Arguments LogInfoReceived {E} row_count.
Arguments LogInfo {E} msg.
Arguments Confirm {E} question.
Arguments DbCommit {E}.
Arguments DbRollback {E}.

(** An exception in flight: an instance of [Exception], which
    [except Exception] catches, or of another [BaseException] class
    ([KeyboardInterrupt], [SystemExit]), which it does not. *)
Inductive raised (E : Type) : Type :=
| OfException (error : E)
| OfBaseException (error : E).

Arguments OfException {E} error.
Arguments OfBaseException {E} error.

Section WithDatabaseSession.

Variable E : Type.

(** The answer [click.confirm] gets to a question. *)
Variable confirm : string -> bool.

(** [with_database_session(command)], called with [action] when the
    command ends as [command_outcome] ([None]: it returned): the events
    after the command, and the exception that leaves the wrapper. *)
Definition with_database_session (action : str)
    (command_outcome : option (raised E))
    : list (event E) * option (raised E) :=
  let processed_without_error :=
    match command_outcome with
    | None => Some true
    | Some (OfException _) => Some false
    | Some (OfBaseException _) => None
    end in
  let succeeded :=
    match processed_without_error with
    | Some true => true
    | _ => false
    end in
  let handler :=
    match command_outcome with
    | Some (OfException error) => [LogErrorAborting error]
    | _ => []
    end in
  let ask_to_commit :=
    (if succeeded then "Commit all changes?"
     else "Commit successfully processed records up to this point?")%string in
  let asked :=
    if str_eqb action (py "prompt") then [Confirm ask_to_commit] else [] in
  let commit :=
    if str_eqb action (py "prompt") then confirm ask_to_commit
    else str_eqb action (py "commit") in
  let finish :=
    if commit then
      [LogInfo (if succeeded then "Committing all changes"
                else "Committing successfully processed records up to this point")%string;
       DbCommit]
    else
      [LogInfo "Rolling back all changes; the database will not be modified";
       DbRollback] in
  (handler ++ asked ++ finish, command_outcome).

(** [upload(consensus_genome_file)] for the file named [file_name]:
    [copy_outcome] is what [db.copy_from_ndjson] does (the row count, or
    the exception it raises) and [commit_outcome] what [db.commit()] does
    when it is called.  The bare [except] catches every exception. *)
Definition upload (file_name : str) (copy_outcome : result (raised E) nat)
    (commit_outcome : option (raised E))
    : list (event E) * option (raised E) :=
  let rollback :=
    [LogInfo "Rolling back all changes; the database will not be modified";
     DbRollback] in
  match copy_outcome with
  | Err error => (LogInfoCopying file_name :: rollback, Some error)
  | Ok row_count =>
      let committing :=
        [LogInfoCopying file_name;
         LogInfoReceived row_count;
         LogInfo "Committing all changes";
         DbCommit] in
      match commit_outcome with
      | None => (committing, None)
      | Some error => (committing ++ rollback, Some error)
      end
  end.

End WithDatabaseSession.

End Command.

(** * Properties *)

(** ** Strings *)

Lemma str_eqb_eq (a b : str) : str_eqb a b = true <-> a = b.
Proof.
  unfold str_eqb. destruct (list_eq_dec N.eq_dec a b); split; congruence.
Qed.

Lemma str_eqb_refl (a : str) : str_eqb a a = true.
Proof. now apply str_eqb_eq. Qed.

Lemma str_eqb_neq (a b : str) : str_eqb a b = false <-> a <> b.
Proof.
  unfold str_eqb. destruct (list_eq_dec N.eq_dec a b); split; congruence.
Qed.

Lemma str_mem_In (c : str) (l : list str) : str_mem c l = true <-> In c l.
Proof.
  unfold str_mem. rewrite existsb_exists. split.
  - intros [x [Hin Heq]]. apply str_eqb_eq in Heq. now subst.
  - intros Hin. exists c. split; [assumption | apply str_eqb_refl].
Qed.

(** ** SHA-256 and hexadecimal output *)

Example sha256_abc :
  Hashlib.hexdigest (Hashlib.update Hashlib.sha256 [97; 98; 99]%N)
  = py "ba7816bf8f01cfea414140de5dae2223b00361a396177a9cb410ff61f20015ad".
Proof. vm_compute. reflexivity. Qed.

Example sha256_empty :
  Hashlib.hexdigest Hashlib.sha256
  = py "e3b0c44298fc1c149afbf4c8996fb92427ae41e4649b934ca495991b7852b855".
Proof. vm_compute. reflexivity. Qed.

(** The derived constants are the published ones. *)
Example sha256_constants :
  length Sha256.K = 64%nat
  /\ firstn 4 Sha256.K = [0x428a2f98; 0x71374491; 0xb5c0fbcf; 0xe9b5dba5]%N
  /\ nth 63 Sha256.K 0%N = 0xc67178f2%N
  /\ Sha256.ra Sha256.H0 = 0x6a09e667%N
  /\ Sha256.rh Sha256.H0 = 0x5be0cd19%N.
Proof. repeat split. Qed.

(** A message that pads to two blocks. *)
Example sha256_two_blocks :
  hex (Sha256.digest
         (py "abcdbcdecdefdefgefghfghighijhijkijkljklmklmnlmnomnopnopq"))
  = py "248d6a61d20638b8e5c026930c3e6039a33ce45964ff2167f6ecedd419db06c1".
Proof. vm_compute. reflexivity. Qed.

(** One, two, three and four octet forms. *)
Example utf8_sample :
  Utf8.encode [104; 233; 8364; 128512]%N
  = Some [104; 195; 169; 226; 130; 172; 240; 159; 152; 128]%N.
Proof. reflexivity. Qed.

Example utf8_surrogate : Utf8.encode [0xD800]%N = None.
Proof. reflexivity. Qed.

Lemma be_bytes_octets (w : nat) (x : N) : Forall octet (Sha256.be_bytes w x).
Proof.
  induction w as [|w IH]; simpl; constructor; [|exact IH].
  unfold octet. change 255%N with (N.ones 8). rewrite N.land_ones.
  apply N.mod_lt. discriminate.
Qed.

Lemma be_bytes_length (w : nat) (x : N) : length (Sha256.be_bytes w x) = w.
Proof. induction w; simpl; congruence. Qed.

Lemma digest_length (msg : bytes) : length (Sha256.digest msg) = 32%nat.
Proof.
  unfold Sha256.digest, Sha256.regs_bytes. cbn [flat_map].
  repeat rewrite length_app. repeat rewrite be_bytes_length. reflexivity.
Qed.

Lemma digest_octets (msg : bytes) : Forall octet (Sha256.digest msg).
Proof.
  unfold Sha256.digest, Sha256.regs_bytes. cbn [flat_map].
  repeat (apply Forall_app; split); try apply be_bytes_octets. constructor.
Qed.

Lemma hex_digit_lower (d : N) : (d < 16)%N -> lower_hex_char (hex_digit d).
Proof.
  intros Hd. unfold hex_digit, lower_hex_char.
  destruct (N.ltb_spec d 10); lia.
Qed.

Lemma hex_length (bs : bytes) : length (hex bs) = (2 * length bs)%nat.
Proof. induction bs as [|b bs IH]; simpl; [reflexivity | lia]. Qed.

Lemma hex_lower (bs : bytes) : Forall octet bs -> Forall lower_hex_char (hex bs).
Proof.
  induction 1 as [|b bs Hb _ IH]; [constructor|].
  unfold hex. cbn [flat_map app]. fold (hex bs). unfold octet in Hb.
  constructor; [|constructor; [|exact IH]]; apply hex_digit_lower.
  - rewrite N.shiftr_div_pow2. change (2 ^ 4)%N with 16%N.
    apply N.Div0.div_lt_upper_bound. lia.
  - change 15%N with (N.ones 4). rewrite N.land_ones.
    apply N.mod_lt. discriminate.
Qed.

(** ** [generate_hash] *)

Import DeIdentify.

Lemma length_pos_nonempty (s : str) : s <> [] -> (0 <? length s)%nat = true.
Proof. destruct s; [congruence | reflexivity]. Qed.

(** With both arguments present and non-empty, [generate_hash] is the
    digest of the two encodings fed one after the other. *)
Lemma generate_hash_digest (environ : environ_t) (identifier secret : str)
    (bi bs : bytes) :
  identifier <> [] -> secret <> [] ->
  Utf8.encode identifier = Some bi -> Utf8.encode secret = Some bs ->
  generate_hash environ identifier (Some secret)
  = Ok (hex (Sha256.digest (bi ++ bs))).
Proof.
  intros Hi Hs Ei Es. unfold generate_hash, bind, assert, encode_utf8.
  rewrite (length_pos_nonempty Hi), (length_pos_nonempty Hs), Ei, Es.
  reflexivity.
Qed.

Example generate_hash_non_ascii :
  generate_hash [] [104; 233; 8364; 128512]%N (Some [107; 233; 121]%N)
  = Ok (py "e7bf687173917219d5fb2cc5114d74d74599d74f81d79cedd1d1e3060a81b3df").
Proof. vm_compute. reflexivity. Qed.

(** C1: for non-empty [identifier] and [secret], with UTF-8 encodings
    [bi] and [bs], [generate_hash(identifier, secret)] returns the
    lowercase hexadecimal form of the SHA-256 digest of [bi] followed
    directly by [bs]: 64 characters drawn from [0-9a-f].  In particular
    [generate_hash("foo", "abadsecret")] is the regression vector
    [72a79a0f...96c8], whatever the environment holds. *)
Theorem generate_hash_is_sha256_hex (environ : environ_t)
    (identifier secret : str) (bi bs : bytes) :
  identifier <> [] -> secret <> [] ->
  Utf8.encode identifier = Some bi -> Utf8.encode secret = Some bs ->
  generate_hash environ identifier (Some secret)
    = Ok (hex (Sha256.digest (bi ++ bs)))
  /\ length (hex (Sha256.digest (bi ++ bs))) = 64%nat
  /\ Forall lower_hex_char (hex (Sha256.digest (bi ++ bs)))
  /\ generate_hash environ (py "foo") (Some (py "abadsecret"))
     = Ok (py "72a79a0f21b20b9c7d0a117addc0d917bcda3065c9c8329aea77b11cb39096c8").
Proof.
  intros Hi Hs Ei Es. split; [|split; [|split]].
  - now apply generate_hash_digest.
  - rewrite hex_length, digest_length. reflexivity.
  - apply hex_lower, digest_octets.
  - erewrite generate_hash_digest;
      [| discriminate | discriminate | reflexivity | reflexivity].
    vm_compute. reflexivity.
Qed.

Lemma generate_hash_is_sha256_hex_witness :
  generate_hash [] (py "foo") (Some (py "abadsecret"))
    = Ok (hex (Sha256.digest ([102; 111; 111]
            ++ [97; 98; 97; 100; 115; 101; 99; 114; 101; 116])%N))
  /\ length (hex (Sha256.digest ([102; 111; 111]
            ++ [97; 98; 97; 100; 115; 101; 99; 114; 101; 116])%N)) = 64%nat
  /\ Forall lower_hex_char (hex (Sha256.digest ([102; 111; 111]
            ++ [97; 98; 97; 100; 115; 101; 99; 114; 101; 116])%N))
  /\ generate_hash [] (py "foo") (Some (py "abadsecret"))
     = Ok (py "72a79a0f21b20b9c7d0a117addc0d917bcda3065c9c8329aea77b11cb39096c8").
Proof.
  apply (@generate_hash_is_sha256_hex [] (py "foo") (py "abadsecret")).
  - discriminate.
  - discriminate.
  - reflexivity.
  - reflexivity.
Defined.

(** C5: an empty [identifier], or an empty [secret], makes
    [generate_hash] raise [AssertionError] whatever the other argument and
    the environment are; no digest is returned.  The same holds when the
    secret is taken from [ID3C_DEIDENTIFY_SECRET]. *)
Theorem generate_hash_rejects_empty (environ : environ_t)
    (identifier secret : str) :
  generate_hash environ [] (Some secret)
    = Err (AssertionError "Empty *identifier* provided!")
  /\ generate_hash environ identifier (Some [])
     = Err (AssertionError
              (if (0 <? length identifier)%nat
               then "Empty *secret* provided!"
               else "Empty *identifier* provided!"))
  /\ (environ_get environ (py "ID3C_DEIDENTIFY_SECRET") = Some secret ->
      generate_hash environ [] None
      = Err (AssertionError "Empty *identifier* provided!"))
  /\ (environ_get environ (py "ID3C_DEIDENTIFY_SECRET") = Some [] ->
      identifier <> [] ->
      generate_hash environ identifier None
      = Err (AssertionError "Empty *secret* provided!")).
Proof.
  split; [reflexivity|]. split; [|split].
  - unfold generate_hash, bind, assert. destruct identifier; reflexivity.
  - intros E. unfold generate_hash. rewrite E. reflexivity.
  - intros E Hi. unfold generate_hash, bind, assert.
    rewrite E, (length_pos_nonempty Hi). reflexivity.
Qed.

Lemma generate_hash_rejects_empty_witness :
  generate_hash [(py "ID3C_DEIDENTIFY_SECRET", py "")] (py "foo") None
  = Err (AssertionError "Empty *secret* provided!").
Proof.
  refine (proj2 (proj2 (proj2
            (@generate_hash_rejects_empty
               [(py "ID3C_DEIDENTIFY_SECRET", py "")] (py "foo") (py ""))))
          _ _).
  - reflexivity.
  - discriminate.
Defined.

(** C6: without a [secret] argument and without [ID3C_DEIDENTIFY_SECRET]
    in the environment, [generate_hash] raises the plain [Exception]
    saying the variable is required, which is not the [AssertionError]
    raised for empty arguments. *)
Theorem generate_hash_requires_environment_secret (environ : environ_t)
    (identifier : str) :
  environ_get environ (py "ID3C_DEIDENTIFY_SECRET") = None ->
  generate_hash environ identifier None
    = Err (Exception
             "The environment variable ID3C_DEIDENTIFY_SECRET is required.")
  /\ forall msg secret,
       generate_hash environ identifier None
       <> generate_hash environ [] (Some secret)
       /\ generate_hash environ identifier None <> Err (AssertionError msg).
Proof.
  intros Henv.
  assert (E : generate_hash environ identifier None
              = Err (Exception
                  "The environment variable ID3C_DEIDENTIFY_SECRET is required.")).
  { unfold generate_hash. rewrite Henv. reflexivity. }
  split; [exact E|].
  intros msg secret. rewrite E. split; discriminate.
Qed.

Lemma generate_hash_requires_environment_secret_witness :
  generate_hash [] (py "foo") None
    = Err (Exception
             "The environment variable ID3C_DEIDENTIFY_SECRET is required.")
  /\ forall msg secret,
       generate_hash [] (py "foo") None <> generate_hash [] [] (Some secret)
       /\ generate_hash [] (py "foo") None <> Err (AssertionError msg).
Proof.
  apply (@generate_hash_requires_environment_secret [] (py "foo")).
  reflexivity.
Defined.

(** ** Data frames *)

Lemma filter_nil_iff {A} (f : A -> bool) (l : list A) :
  filter f l = [] <-> forall x, In x l -> f x = false.
Proof.
  induction l as [|a l IH]; simpl.
  - split; [intros _ x [] | reflexivity].
  - destruct (f a) eqn:Fa.
    + split; [discriminate|]. intros H. specialize (H a (or_introl eq_refl)).
      congruence.
    + rewrite IH. split.
      * intros H x [<-|Hx]; [assumption | now apply H].
      * intros H x Hx. apply H. now right.
Qed.

Lemma position_lt (label : str) (labels : list str) (p : nat) :
  position label labels = Some p -> (p < length labels)%nat.
Proof.
  revert p. induction labels as [|l labels IH]; simpl; intros p; [discriminate|].
  destruct (str_eqb l label).
  - intros [= <-]. lia.
  - destruct (position label labels) as [q|]; simpl; [|discriminate].
    intros [= <-]. specialize (IH q eq_refl). lia.
Qed.

Lemma position_In (label : str) (labels : list str) :
  In label labels -> exists p, position label labels = Some p.
Proof.
  induction labels as [|l labels IH]; simpl; [intros []|].
  intros H. destruct (str_eqb l label) eqn:E; [now exists O|].
  apply str_eqb_neq in E. destruct H as [H|H]; [contradiction|].
  destruct (IH H) as [p ->]. now exists (S p).
Qed.

Lemma position_not_In (label : str) (labels : list str) :
  ~ In label labels -> position label labels = None.
Proof.
  intros H. destruct (position label labels) as [p|] eqn:E; [|reflexivity].
  exfalso. apply H. clear H. revert p E.
  induction labels as [|l labels IH]; simpl; intros p; [discriminate|].
  destruct (str_eqb l label) eqn:El.
  - apply str_eqb_eq in El. now left.
  - destruct (position label labels) as [q|]; [|discriminate].
    intros _. right. now apply (IH q).
Qed.

Lemma position_last (label : str) (labels : list str) :
  ~ In label labels -> position label (labels ++ [label]) = Some (length labels).
Proof.
  induction labels as [|l labels IH]; simpl; intros H.
  - now rewrite str_eqb_refl.
  - destruct (str_eqb l label) eqn:E.
    + apply str_eqb_eq in E. exfalso. apply H. now left.
    + rewrite IH; [reflexivity|]. intros Hin. apply H. now right.
Qed.

Lemma row_get_present {A} (labels : list str) (row : list A) (label : str) :
  length row = length labels -> In label labels ->
  exists v, row_get labels row label = Some v.
Proof.
  intros Hlen Hin. unfold row_get.
  destruct (position_In _ _ Hin) as [p Hp]. rewrite Hp.
  apply position_lt in Hp.
  destruct (nth_error row p) as [v|] eqn:E; [now exists v|].
  apply nth_error_None in E. lia.
Qed.

(** Selecting present labels from a full row gives exactly the row's
    values under those labels, in the order of the labels. *)
Lemma select_present {A} (labels : list str) (row : list A) (cols : list str) :
  length row = length labels -> incl cols labels ->
  Forall2 (fun c v => row_get labels row c = Some v) cols
          (flat_map (fun l => cells (row_get labels row l)) cols).
Proof.
  intros Hlen. induction cols as [|c cols IH]; intros Hincl; simpl.
  - constructor.
  - destruct (@row_get_present A labels row c Hlen) as [v Hv].
    { apply Hincl. now left. }
    rewrite Hv. simpl. constructor; [exact Hv|].
    apply IH. intros x Hx. apply Hincl. now right.
Qed.

Lemma getitem_present {A} (df : DataFrame A) (cols : list str) :
  incl cols (columns df) ->
  getitem df cols
  = Ok (Frame cols
          (map (fun r => flat_map (fun l => cells (row_get (columns df) r l)) cols)
               (rows df))).
Proof.
  intros Hincl. unfold getitem.
  replace (filter (fun l => negb (str_mem l (columns df))) cols) with (@nil str);
    [reflexivity|].
  symmetry. apply filter_nil_iff. intros x Hx.
  apply Hincl, str_mem_In in Hx. now rewrite Hx.
Qed.

Lemma getitem_outcome {A} (df : DataFrame A) (cols : list str) :
  (incl cols (columns df) /\
   getitem df cols
   = Ok (Frame cols
           (map (fun r => flat_map (fun l => cells (row_get (columns df) r l)) cols)
                (rows df))))
  \/ (exists missing, missing <> [] /\
        getitem df cols = Err (KeyError missing) /\
        forall m, In m missing <-> In m cols /\ ~ In m (columns df)).
Proof.
  destruct (filter (fun l => negb (str_mem l (columns df))) cols) as [|m ms] eqn:E.
  - left. assert (Hincl : incl cols (columns df)).
    { intros x Hx. apply str_mem_In.
      pose proof (proj1 (filter_nil_iff _ _) E x Hx) as Hf. simpl in Hf.
      now destruct (str_mem x (columns df)). }
    split; [exact Hincl | now apply getitem_present].
  - right. exists (m :: ms). split; [discriminate|]. split.
    + unfold getitem. now rewrite E.
    + intros x. rewrite <- E, filter_In. split; intros [H1 H2]; split; try assumption.
      * intros Hin. apply str_mem_In in Hin. now rewrite Hin in H2.
      * destruct (str_mem x (columns df)) eqn:Em; [|reflexivity].
        apply str_mem_In in Em. contradiction.
Qed.

Lemma mapM_Forall2 {E A B} (f : A -> result E B) (l : list A) (bs : list B) :
  mapM f l = Ok bs -> Forall2 (fun a b => f a = Ok b) l bs.
Proof.
  revert bs. induction l as [|a l IH]; simpl; intros bs.
  - intros [= <-]. constructor.
  - unfold bind. destruct (f a) as [b|e] eqn:Fa; [|discriminate].
    destruct (mapM f l) as [bs'|e]; [|discriminate].
    intros [= <-]. constructor; [exact Fa | now apply IH].
Qed.

Lemma nth_error_replace_at {A} (p : nat) (v : A) (r : list A) :
  (p < length r)%nat -> nth_error (replace_at p v r) p = Some v.
Proof.
  revert r. induction p as [|p IH]; intros [|a r]; simpl; intros H;
    try lia; [reflexivity|]. apply IH. lia.
Qed.

(** After [df[label] = series], the cell under [label] is the value
    from the series. *)
Lemma setitem_row_get {A} (labels : list str) (label : str) (r : list A) (v : A) :
  length r = length labels ->
  match position label labels with
  | Some p => row_get labels (replace_at p v r) label = Some v
  | None => row_get (labels ++ [label]) (r ++ [v]) label = Some v
  end.
Proof.
  intros Hlen. destruct (position label labels) as [p|] eqn:E; unfold row_get.
  - rewrite E. apply nth_error_replace_at. apply position_lt in E. lia.
  - rewrite position_last.
    + rewrite <- Hlen, nth_error_app2, Nat.sub_diag; [reflexivity | lia].
    + intros Hin. apply position_In in Hin. destruct Hin as [p Hp]. congruence.
Qed.

Lemma row_get_cons_neq {A} (l : str) (labels : list str) (a : A) (r : list A)
    (label : str) :
  l <> label -> row_get (l :: labels) (a :: r) label = row_get labels r label.
Proof.
  intros Hne. unfold row_get. simpl.
  apply str_eqb_neq in Hne. rewrite Hne.
  destruct (position label labels); reflexivity.
Qed.

Lemma row_get_nil {A} (labels : list str) (label : str) :
  @row_get A labels [] label = None.
Proof.
  unfold row_get. destruct (position label labels) as [[|p]|]; reflexivity.
Qed.

(** Dropping columns leaves the cells under the other labels alone. *)
Lemma drop_row_get {A} (labels dropped : list str) (r : list A) (label : str) :
  ~ In label dropped ->
  row_get (filter (fun l => negb (str_mem l dropped)) labels)
          (map snd (filter (fun lv => negb (str_mem (fst lv) dropped))
                           (combine labels r)))
          label
  = row_get labels r label.
Proof.
  intros Hkeep. revert r. induction labels as [|l labels IH]; intros r.
  - simpl. unfold row_get. simpl. reflexivity.
  - destruct r as [|a r].
    + simpl. now rewrite !row_get_nil.
    + simpl. destruct (str_mem l dropped) eqn:Em; simpl.
      * rewrite IH. symmetry. apply row_get_cons_neq.
        intros ->. apply str_mem_In in Em. contradiction.
      * destruct (str_eqb l label) eqn:El.
        -- unfold row_get. simpl. now rewrite El.
        -- apply str_eqb_neq in El.
           rewrite !row_get_cons_neq by assumption. apply IH.
Qed.

(** ** The [de_identify] command *)

Lemma record_values_functional {A} (labels : list str) (row : list A)
    (fields : list str) (vs ws : list A) :
  record_values labels row fields vs -> record_values labels row fields ws ->
  vs = ws.
Proof.
  unfold record_values. intros H. revert ws.
  induction H as [|c v cs vs Hv _ IH]; intros ws Hw; inversion Hw; subst.
  - reflexivity.
  - f_equal; [congruence | now apply IH].
Qed.

Lemma hash_or_none_hashed_as (environ : environ_t) (x : str) (cell : option str) :
  hash_or_none environ x = Ok cell -> hashed_as environ x cell.
Proof.
  unfold hash_or_none, hashed_as. destruct x as [|c x].
  - intros [= <-]. now left.
  - unfold bind. destruct (generate_hash environ (c :: x) None) as [h|e] eqn:E;
      [|discriminate].
    intros [= <-]. right. split; [discriminate|]. now exists h.
Qed.

(** The run once the requested columns are known to exist. *)
Lemma de_identify_run (environ : environ_t) (cols : list str)
    (df : DataFrame str) (drop_input_columns : bool) :
  incl cols (columns df) ->
  de_identify environ cols df drop_input_columns
  = match rows df, cols with
    | [], _ :: _ => (Err AttributeError, [])
    | _, _ =>
        match mapM (hash_or_none environ)
                (map (fun r => join (py " ")
                        (flat_map (fun l => cells (row_get (columns df) r l)) cols))
                     (rows df)) with
        | Err error => (Err error, [])
        | Ok hashes =>
            if drop_input_columns then
              match drop (setitem (copy df) (py "hash") hashes) cols with
              | Ok dropped => (Ok dropped, [])
              | Err error =>
                  (Err error,
                   [] ++ [ErrorColumns error
                            (columns (setitem (copy df) (py "hash") hashes))])
              end
            else (Ok (setitem (copy df) (py "hash") hashes), [])
        end
    end.
Proof.
  intros Hincl. unfold de_identify, extract_fields_from_input.
  rewrite (getitem_present df Hincl).
  unfold apply_join, joined_fields, apply_rows. cbn [rows columns].
  rewrite map_map.
  destruct (rows df) as [|r rs]; [destruct cols as [|c cols']|]; reflexivity.
Qed.

(** A successful run: every requested column exists, every joined value
    was hashed, and the output is the input with the [hash] column set,
    less the dropped columns. *)
Lemma de_identify_success (environ : environ_t) (cols : list str)
    (df : DataFrame str) (drop_input_columns : bool)
    (out : DataFrame (option str)) (log : list log_record) :
  de_identify environ cols df drop_input_columns = (Ok out, log) ->
  incl cols (columns df) /\
  exists hashes,
    mapM (hash_or_none environ)
         (map (fun r => join (py " ")
                 (flat_map (fun l => cells (row_get (columns df) r l)) cols))
              (rows df)) = Ok hashes
    /\ if drop_input_columns
       then drop (setitem (copy df) (py "hash") hashes) cols = Ok out
       else out = setitem (copy df) (py "hash") hashes.
Proof.
  intros H.
  destruct (getitem_outcome df cols) as [[Hincl _]|[missing [_ [Hg _]]]].
  - rewrite (@de_identify_run environ cols df drop_input_columns Hincl) in H.
    split; [exact Hincl|].
    assert (H' : match mapM (hash_or_none environ)
                   (map (fun r => join (py " ")
                           (flat_map (fun l => cells (row_get (columns df) r l)) cols))
                        (rows df)) with
                 | Err error => (Err error, [])
                 | Ok hashes =>
                     if drop_input_columns then
                       match drop (setitem (copy df) (py "hash") hashes) cols with
                       | Ok dropped => (Ok dropped, [])
                       | Err error =>
                           (Err error,
                            [] ++ [ErrorColumns error
                                     (columns (setitem (copy df) (py "hash") hashes))])
                       end
                     else (Ok (setitem (copy df) (py "hash") hashes), [])
                 end = (@Ok DeIdentify.exn _ out, log)).
    { destruct (rows df) as [|r rs]; [destruct cols as [|c cols']|];
        first [exact H | discriminate]. }
    clear H. destruct (mapM _ _) as [hashes|e]; [|discriminate].
    exists hashes. split; [reflexivity|].
    destruct drop_input_columns.
    + destruct (drop _ cols) as [dropped|e]; [|discriminate]. congruence.
    + congruence.
  - unfold de_identify, extract_fields_from_input in H. rewrite Hg in H.
    discriminate.
Qed.

(** Row by row: the output cell under [hash] is computed from the
    space-joined values of the requested fields. *)
Lemma hash_cells_related (environ : environ_t) (labels cols : list str)
    (G : list (option str) -> option (option str))
    (g : list (option str) * option str -> list (option str)) :
  (forall (r : list str) v,
      length r = length labels -> G (g (map (@Some str) r, v)) = Some v) ->
  forall (rs : list (list str)) (hashes : list (option str)),
    Forall (fun r => length r = length labels) rs ->
    incl cols labels ->
    Forall2 (fun j cell => hash_or_none environ j = Ok cell)
            (map (fun r => join (py " ")
                    (flat_map (fun l => cells (row_get labels r l)) cols)) rs)
            hashes ->
    Forall2 (fun r o =>
               exists vs cell,
                 record_values labels r cols vs
                 /\ hashed_as environ (join (py " ") vs) cell
                 /\ G o = Some cell)
            rs (map g (combine (map (map (@Some str)) rs) hashes)).
Proof.
  intros HG rs. induction rs as [|r rs IH]; intros hashes Hwf Hincl Hh.
  - constructor.
  - inversion Hwf as [|? ? Hr Hrs]; subst.
    simpl in Hh. inversion Hh as [|? cell ? hs Hcell Hrest]; subst.
    simpl. constructor.
    + exists (flat_map (fun l => cells (row_get labels r l)) cols), cell.
      split; [now apply select_present|].
      split; [now apply hash_or_none_hashed_as | now apply HG].
    + now apply IH.
Qed.

Lemma de_identify_hash_cells (environ : environ_t) (cols : list str)
    (df : DataFrame str) (drop_input_columns : bool)
    (out : DataFrame (option str)) (log : list log_record) :
  well_formed df ->
  (drop_input_columns = true -> ~ In (py "hash") cols) ->
  de_identify environ cols df drop_input_columns = (Ok out, log) ->
  Forall2 (fun r o =>
             exists vs cell,
               record_values (columns df) r cols vs
               /\ hashed_as environ (join (py " ") vs) cell
               /\ row_get (columns out) o (py "hash") = Some cell)
          (rows df) (rows out).
Proof.
  intros [_ Hwf] Hdrop H.
  destruct (de_identify_success _ _ _ _ H) as [Hincl [hashes [Hm Hout]]].
  apply mapM_Forall2 in Hm.
  pose proof (@setitem_row_get (option str) (columns df) (py "hash")) as Hset.
  unfold setitem, copy in Hout. cbn [columns rows] in Hout.
  destruct drop_input_columns.
  - specialize (Hdrop eq_refl). unfold drop in Hout.
    destruct (filter _ cols); [|discriminate].
    injection Hout as <-. cbn [columns rows].
    destruct (position (py "hash") (columns df)) as [p|] eqn:Ep;
      cbn [columns rows]; rewrite map_map;
      apply hash_cells_related; try assumption;
      intros r v Hr; cbn [fst snd]; rewrite drop_row_get by assumption;
      apply Hset; now rewrite length_map.
  - subst out.
    destruct (position (py "hash") (columns df)) as [p|] eqn:Ep;
      cbn [columns rows];
      apply hash_cells_related; try assumption;
      intros r v Hr; cbn [fst snd]; apply Hset; now rewrite length_map.
Qed.

Lemma mapM_error {E A B} (f : A -> result E B) (l : list A) (e : E) :
  mapM f l = Err e -> exists a, In a l /\ f a = Err e.
Proof.
  induction l as [|a l IH]; simpl; [discriminate|].
  unfold bind. destruct (f a) as [b|e'] eqn:Fa.
  - destruct (mapM f l) as [bs|e'']; [discriminate|].
    intros [= <-]. destruct (IH eq_refl) as [x [Hx Fx]].
    exists x. split; [now right | exact Fx].
  - intros [= <-]. exists a. split; [now left | exact Fa].
Qed.

(** Called on a non-empty value, [generate_hash] never raises the
    empty-identifier assertion. *)
Lemma generate_hash_nonempty_error (environ : environ_t) (x : str)
    (secret : option str) (e : exn) :
  x <> [] -> generate_hash environ x secret = Err e ->
  e <> AssertionError "Empty *identifier* provided!".
Proof.
  intros Hx. unfold generate_hash, bind, assert, encode_utf8.
  rewrite (length_pos_nonempty Hx).
  destruct secret as [s|];
    [|destruct (environ_get environ _) as [s|]; [|intros [= <-]; discriminate]];
    (destruct (0 <? length s)%nat; [|intros [= <-]; discriminate]);
    (destruct (Utf8.encode x); [|intros [= <-]; discriminate]);
    (destruct (Utf8.encode s); [discriminate | intros [= <-]; discriminate]).
Qed.

Lemma de_identify_error (environ : environ_t) (cols : list str)
    (df : DataFrame str) (drop_input_columns : bool) (e : exn)
    (log : list log_record) :
  de_identify environ cols df drop_input_columns = (Err e, log) ->
  (exists labels, e = KeyError labels)
  \/ e = AttributeError
  \/ (exists x, x <> [] /\ generate_hash environ x None = Err e).
Proof.
  unfold de_identify, extract_fields_from_input.
  destruct (getitem df cols) as [fields|e0] eqn:Eg.
  - destruct (apply_join fields) as [joined|frame];
      [|intros [= <- _]; right; now left].
    destruct (mapM (hash_or_none environ) joined) as [hashes|e1] eqn:Em.
    + destruct drop_input_columns; [|discriminate].
      unfold drop. destruct (filter _ cols) as [|m ms]; [discriminate|].
      intros [= <- _]. left. now exists (m :: ms).
    + intros [= <- _]. right. right.
      destruct (mapM_error _ _ Em) as [x [_ Hx]].
      unfold hash_or_none in Hx. destruct x as [|c x]; [discriminate|].
      exists (c :: x). split; [discriminate|].
      unfold bind in Hx.
      destruct (generate_hash environ (c :: x) None); [discriminate | congruence].
  - intros [= <- _]. left.
    destruct (getitem_outcome df cols) as [[_ H]|[missing [_ [H _]]]];
      rewrite H in Eg; [discriminate|].
    injection Eg as <-. now exists missing.
Qed.

(** C7: for a frame as pandas reads it and requested columns that all
    exist, the value joined for each row is its cells under the
    requested columns, in the requested order, separated by single
    spaces; that value is what [generate_hash] is called on to fill the
    row's [hash] cell.  For the record [{a: "x", b: "y"}] and columns
    [a], [b] the string hashed is ["x y"]. *)
Theorem record_hashing_joins_fields (environ : environ_t) (cols : list str)
    (df : DataFrame str) :
  well_formed df -> incl cols (columns df) ->
  (exists fields,
      extract_fields_from_input df cols = (Ok fields, [])
      /\ Forall2 (fun r j =>
                    exists vs, record_values (columns df) r cols vs
                               /\ j = join (py " ") vs)
                 (rows df) (joined_fields fields))
  /\ (forall drop_input_columns out log,
        (drop_input_columns = true -> ~ In (py "hash") cols) ->
        de_identify environ cols df drop_input_columns = (Ok out, log) ->
        Forall2 (fun r o =>
                   exists vs cell,
                     record_values (columns df) r cols vs
                     /\ hashed_as environ (join (py " ") vs) cell
                     /\ row_get (columns out) o (py "hash") = Some cell)
                (rows df) (rows out))
  /\ (let record := Frame [py "a"; py "b"] [[py "x"; py "y"]] in
      let secret := [(py "ID3C_DEIDENTIFY_SECRET", py "abadsecret")] in
      (exists fields,
          extract_fields_from_input record [py "a"; py "b"] = (Ok fields, [])
          /\ joined_fields fields = [py "x y"])
      /\ (let h :=
            py "6dd90c7b6598b3e4753831db997e506928077d7a82967388c8bc2780ab85627c"
          in
          generate_hash secret (py "x y") None = Ok h
          /\ de_identify secret [py "a"; py "b"] record false
             = (Ok (Frame [py "a"; py "b"; py "hash"]
                      [[Some (py "x"); Some (py "y"); Some h]]), []))).
Proof.
  intros Hwf Hincl. split; [|split].
  - eexists. unfold extract_fields_from_input.
    rewrite (getitem_present df Hincl). split; [reflexivity|].
    unfold joined_fields, apply_rows. cbn [rows]. rewrite map_map.
    destruct Hwf as [_ Hrows].
    induction Hrows as [|r rs Hr _ IH]; simpl; constructor; [|exact IH].
    eexists. split; [now apply select_present | reflexivity].
  - intros d out log Hd H.
    exact (@de_identify_hash_cells environ cols df d out log Hwf Hd H).
  - cbv zeta. split.
    + eexists. split; reflexivity.
    + split; vm_compute; reflexivity.
Qed.

Lemma record_hashing_joins_fields_witness :
  exists fields,
    extract_fields_from_input
      (Frame [py "a"; py "b"] [[py "x"; py "y"]; [py ""; py "z"]])
      [py "b"; py "a"] = (Ok fields, [])
    /\ Forall2 (fun r j =>
                  exists vs, record_values [py "a"; py "b"] r [py "b"; py "a"] vs
                             /\ j = join (py " ") vs)
               [[py "x"; py "y"]; [py ""; py "z"]] (joined_fields fields).
Proof.
  refine (proj1 (@record_hashing_joins_fields []
                   [py "b"; py "a"]
                   (Frame [py "a"; py "b"] [[py "x"; py "y"]; [py ""; py "z"]])
                   _ _)).
  - split.
    + cbv. repeat constructor; simpl; intuition discriminate.
    + repeat constructor.
  - cbv. intros c [<-|[<-|[]]]; simpl; tauto.
Defined.

(** C8: when a requested field [c] is not a column of the frame,
    [extract_fields_from_input], and with it the [de_identify] command,
    raises [KeyError]; the exception names the requested labels that are
    missing, [c] among them, and the error logged with it lists the
    columns the input does have. *)
Theorem missing_field_raises_key_error (environ : environ_t)
    (cols : list str) (df : DataFrame str) (drop_input_columns : bool)
    (c : str) :
  In c cols -> ~ In c (columns df) ->
  exists missing,
    In c missing
    /\ (forall m, In m missing <-> In m cols /\ ~ In m (columns df))
    /\ extract_fields_from_input df cols
       = (Err (KeyError missing),
          [ErrorInputColumns (KeyError missing) (columns df)])
    /\ de_identify environ cols df drop_input_columns
       = (Err (KeyError missing),
          [ErrorInputColumns (KeyError missing) (columns df)]).
Proof.
  intros Hc Hmiss.
  destruct (getitem_outcome df cols) as [[Hincl _]|[missing [_ [Hg Hm]]]].
  - exfalso. now apply Hmiss, Hincl.
  - exists missing. split; [now apply Hm|]. split; [exact Hm|].
    unfold de_identify, extract_fields_from_input. rewrite Hg. now split.
Qed.

Lemma missing_field_raises_key_error_witness :
  exists missing,
    In (py "b") missing
    /\ (forall m, In m missing <->
                  In m [py "a"; py "b"] /\ ~ In m [py "a"; py "c"])
    /\ extract_fields_from_input
         (Frame [py "a"; py "c"] [[py "x"; py "y"]]) [py "a"; py "b"]
       = (Err (KeyError missing),
          [ErrorInputColumns (KeyError missing) [py "a"; py "c"]])
    /\ de_identify [] [py "a"; py "b"]
         (Frame [py "a"; py "c"] [[py "x"; py "y"]]) false
       = (Err (KeyError missing),
          [ErrorInputColumns (KeyError missing) [py "a"; py "c"]]).
Proof.
  apply (@missing_field_raises_key_error []
           [py "a"; py "b"] (Frame [py "a"; py "c"] [[py "x"; py "y"]])
           false (py "b")).
  - simpl. tauto.
  - cbv. intros [H|[H|[]]]; discriminate.
Defined.

(** C9: in the [de_identify] command a row whose selected values join to
    the empty string gets a null [hash] cell: the guard returns [None]
    without calling [generate_hash], whatever the environment holds, so
    the command never fails with the empty-identifier assertion. *)
Theorem empty_joined_value_gets_null_hash (environ : environ_t)
    (cols : list str) (df : DataFrame str) (drop_input_columns : bool) :
  hash_or_none environ [] = Ok None
  /\ (forall log,
        de_identify environ cols df drop_input_columns
        <> (Err (AssertionError "Empty *identifier* provided!"), log))
  /\ (well_formed df ->
      (drop_input_columns = true -> ~ In (py "hash") cols) ->
      forall out log,
        de_identify environ cols df drop_input_columns = (Ok out, log) ->
        Forall2 (fun r o =>
                   forall vs,
                     record_values (columns df) r cols vs ->
                     join (py " ") vs = [] ->
                     row_get (columns out) o (py "hash") = Some None)
                (rows df) (rows out)).
Proof.
  split; [reflexivity|]. split.
  - intros log H. apply de_identify_error in H.
    destruct H as [[labels H]|[H|[x [Hx H]]]]; [discriminate | discriminate |].
    now apply generate_hash_nonempty_error in H.
  - intros Hwf Hdrop out log H.
    pose proof (de_identify_hash_cells _ _ Hwf Hdrop H) as Hcells.
    eapply Forall2_impl; [|exact Hcells].
    intros r o [vs [cell [Hvs [Hcell Hget]]]] ws Hws Hempty.
    rewrite (record_values_functional Hws Hvs) in Hempty.
    destruct Hcell as [[_ ->]|[Hne _]]; [exact Hget | contradiction].
Qed.

Lemma empty_joined_value_gets_null_hash_witness :
  Forall2 (fun r o =>
             forall vs,
               record_values [py "a"; py "b"] r [py "a"] vs ->
               join (py " ") vs = [] ->
               row_get [py "a"; py "b"; py "hash"] o (py "hash") = Some None)
          [[py ""; py "y"]] [[Some (py ""); Some (py "y"); None]].
Proof.
  refine (proj2 (proj2 (@empty_joined_value_gets_null_hash []
            [py "a"] (Frame [py "a"; py "b"] [[py ""; py "y"]]) false))
          _ _ (Frame [py "a"; py "b"; py "hash"]
                 [[Some (py ""); Some (py "y"); None]]) [] _).
  - split.
    + cbv. repeat constructor; simpl; intuition discriminate.
    + repeat constructor.
  - discriminate.
  - reflexivity.
Defined.

(** ** The identifier tables *)

Import Db Datastore.

Lemma has_value_In (s : DatabaseSession) (v : str) :
  has_value s v = true <-> In v (map id_value (identifier s)).
Proof.
  unfold has_value. rewrite existsb_exists, in_map_iff. split.
  - intros [r [Hr E]]. apply str_eqb_eq in E. now exists r.
  - intros [r [E Hr]]. exists r. split; [exact Hr | now apply str_eqb_eq].
Qed.

Lemma has_value_not_In (s : DatabaseSession) (v : str) :
  has_value s v = false <-> ~ In v (map id_value (identifier s)).
Proof.
  rewrite <- has_value_In. destruct (has_value s v); split; congruence.
Qed.

Lemma has_set_In (s : DatabaseSession) (name : str) :
  has_set s name = true <-> In name (map set_name (identifier_set s)).
Proof.
  unfold has_set. rewrite existsb_exists, in_map_iff. split.
  - intros [r [Hr E]]. apply str_eqb_eq in E. now exists r.
  - intros [r [E Hr]]. exists r. split; [exact Hr | now apply str_eqb_eq].
Qed.

(** One insert attempt on the tables of a session that has the set. *)
Lemma insert_identifier_outcome (s : DatabaseSession) (name c : str) :
  has_set s name = true ->
  (has_value s c = true /\ insert_identifier s name c = (Ok false, s))
  \/ (has_value s c = false /\
      insert_identifier s name c
      = (Ok true, Session (identifier_set s) (identifier s ++ [IdRow name c]))).
Proof.
  intros Hs. unfold insert_identifier. rewrite Hs. simpl.
  destruct (has_value s c); [left | right]; now split.
Qed.

(** ** [make_identifier_set] *)




(** ** Minting on the identifier tables *)

Section TableMinter.

Variable max_failures : nat.
Variable candidate : nat -> str.
Variable name : str.

(** One identifier: either a value that was not in the table is drawn
    and committed, or every one of [budget] draws collided and the
    tables are untouched. *)
Lemma mint_one_table (budget : nat) (st : DatabaseSession) (drawn : nat) :
  has_set st name = true ->
  (exists i,
      (drawn <= i < drawn + budget)%nat
      /\ has_value st (candidate i) = false
      /\ mint_one candidate budget name st drawn
         = (Minted (candidate i),
            (Session (identifier_set st)
                     (identifier st ++ [IdRow name (candidate i)]),
             S i)))
  \/ ((forall i, (drawn <= i < drawn + budget)%nat ->
                 has_value st (candidate i) = true)
      /\ mint_one candidate budget name st drawn
         = (Exhausted, (st, (drawn + budget)%nat))).
Proof.
  intros Hs. revert drawn. induction budget as [|b IH]; intros drawn.
  - right. split; [intros i Hi; lia|]. simpl. now rewrite Nat.add_0_r.
  - cbn [mint_one insertIdentifier table_store].
    destruct (@insert_identifier_outcome st name (candidate drawn) Hs)
      as [[Hv ->]|[Hv ->]].
    + destruct (IH (S drawn)) as [[i [Hi [Hf E]]]|[Hall E]].
      * left. exists i. split; [lia|]. now split.
      * right. split.
        -- intros i Hi. destruct (Nat.eq_dec i drawn) as [->|Hne];
             [exact Hv | apply Hall; lia].
        -- rewrite E. do 2 f_equal. lia.
    + left. exists drawn. split; [lia|]. now split.
Qed.

Lemma has_value_added (st : DatabaseSession) (v w : str) :
  has_value (Session (identifier_set st) (identifier st ++ [IdRow name v])) w
  = false ->
  has_value st w = false /\ v <> w.
Proof.
  unfold has_value. cbn [identifier]. rewrite existsb_app. simpl.
  rewrite orb_false_r. intros H. apply orb_false_elim in H.
  destruct H as [H1 H2]. split; [exact H1 | now apply str_eqb_neq].
Qed.

Lemma mint_loop_table (n : nat) (minted : list str) (st : DatabaseSession)
    (drawn : nat) :
  has_set st name = true ->
  exists new st' drawn',
    loop_facts candidate name st drawn new st' drawn'
    /\ ((length new = n
         /\ mint_loop max_failures candidate n name minted st drawn
            = (Ok (minted ++ new), (st', drawn')))
        \/ ((length new < n)%nat
            /\ (drawn + max_failures <= drawn')%nat
            /\ mint_loop max_failures candidate n name minted st drawn
               = (Err (TooManyFailuresError (length minted + length new)),
                  (st', drawn')))).
Proof.
  revert minted st drawn. induction n as [|n IH]; intros minted st drawn Hs.
  - exists [], st, drawn. split.
    + constructor; try reflexivity.
      * now rewrite app_nil_r.
      * constructor.
      * intros v [].
      * exists []. repeat split; constructor.
    + left. split; [reflexivity|]. simpl. now rewrite app_nil_r.
  - cbn [mint_loop].
    destruct (@mint_one_table max_failures st drawn Hs)
      as [[i [Hi [Hf ->]]]|[Hall ->]].
    + set (st1 := Session (identifier_set st)
                          (identifier st ++ [IdRow name (candidate i)])).
      assert (Hs1 : has_set st1 name = true) by exact Hs.
      destruct (IH (minted ++ [candidate i]) st1 (S i) Hs1)
        as [new [st' [drawn' [F Hres]]]].
      destruct F as [Fdrawn Fsets Frows Fnodup Ffresh
                       [idxs [Eidx [Hsorted Hrange]]]].
      exists (candidate i :: new), st', drawn'. split.
      * constructor.
        -- lia.
        -- exact Fsets.
        -- rewrite Frows. unfold st1. cbn [identifier map].
           now rewrite <- app_assoc.
        -- constructor; [|exact Fnodup].
           intros Hin. apply Ffresh, has_value_added in Hin. now destruct Hin.
        -- intros v [<-|Hin]; [exact Hf|].
           now apply Ffresh, has_value_added in Hin.
        -- exists (i :: idxs). split; [now rewrite Eidx|]. split.
           ++ constructor; [exact Hsorted|].
              eapply Forall_impl; [|exact Hrange]. simpl. intros j Hj. lia.
           ++ constructor; [lia|].
              eapply Forall_impl; [|exact Hrange]. simpl. intros j Hj. lia.
      * destruct Hres as [[Hlen E]|[Hlen [Hd E]]].
        -- left. split; [simpl; lia|]. rewrite E. now rewrite <- app_assoc.
        -- right. split; [simpl; lia|]. split; [lia|]. rewrite E.
           rewrite length_app. simpl. do 3 f_equal. lia.
    + exists [], st, (drawn + max_failures)%nat. split.
      * constructor; try reflexivity.
        -- lia.
        -- now rewrite app_nil_r.
        -- constructor.
        -- intros v [].
        -- exists []. repeat split; constructor.
      * right. split; [simpl; lia|]. split; [lia|].
        simpl. now rewrite Nat.add_0_r.
Qed.

Lemma has_value_add (st : DatabaseSession) (v w : str) :
  has_value st w = false -> v <> w ->
  has_value (Session (identifier_set st) (identifier st ++ [IdRow name v])) w
  = false.
Proof.
  intros H Hne. unfold has_value in *. cbn [identifier].
  rewrite existsb_app, H. simpl. apply str_eqb_neq in Hne. now rewrite Hne.
Qed.

Lemma mint_one_first (budget : nat) :
  (0 < budget)%nat ->
  forall (st : DatabaseSession) (drawn : nat),
    has_set st name = true ->
    has_value st (candidate drawn) = false ->
    mint_one candidate budget name st drawn
    = (Minted (candidate drawn),
       (Session (identifier_set st)
                (identifier st ++ [IdRow name (candidate drawn)]),
        S drawn)).
Proof.
  intros Hb st drawn Hs Hv. destruct budget as [|b]; [lia|].
  cbn [mint_one insertIdentifier table_store].
  unfold insert_identifier. now rewrite Hs, Hv.
Qed.

(** A source whose draws are pairwise distinct and absent from the
    table never collides: every round mints its first draw. *)
Lemma mint_loop_fresh (n : nat) :
  (0 < max_failures)%nat ->
  forall (minted : list str) (st : DatabaseSession) (drawn : nat),
    has_set st name = true ->
    (forall i, (drawn <= i)%nat -> has_value st (candidate i) = false) ->
    (forall i j, (drawn <= i)%nat -> (drawn <= j)%nat ->
                 candidate i = candidate j -> i = j) ->
    mint_loop max_failures candidate n name minted st drawn
    = (Ok (minted ++ map candidate (seq drawn n)),
       (Session (identifier_set st)
                (identifier st ++ map (IdRow name) (map candidate (seq drawn n))),
        (drawn + n)%nat)).
Proof.
  intros Hmax. induction n as [|n IH]; intros minted st drawn Hs Hfresh Hinj.
  - simpl. rewrite !app_nil_r, Nat.add_0_r. now destruct st.
  - cbn [mint_loop].
    rewrite (mint_one_first Hmax st drawn Hs (Hfresh drawn (le_n _))).
    rewrite IH.
    + cbn [identifier_set identifier seq map].
      rewrite <- !app_assoc. cbn [app]. do 2 f_equal. lia.
    + exact Hs.
    + intros i Hi. apply has_value_add; [apply Hfresh; lia|].
      intros E. apply Hinj in E; lia.
    + intros i j Hi Hj. apply Hinj; lia.
Qed.

End TableMinter.

(** ** [mint_identifiers] *)

(** C2: on a session that has the set, for [n >= 0], whenever
    [mint_identifiers] returns it returns exactly [n] values, pairwise
    distinct and none of them in the identifier table before the call;
    they are draws of the random source in the order drawn, and the table
    afterwards is the old table followed by one row per value, in that
    order.  It does return, with the first [n] draws, whenever the bound
    is positive and the source draws distinct values not yet in the
    table. *)
Theorem mint_returns_n_distinct_identifiers (max_failures : nat)
    (candidate : nat -> str) (session : DatabaseSession) (drawn : nat)
    (name : str) (n : Z) :
  (0 <= n)%Z ->
  has_set session name = true ->
  (forall minted session' drawn',
      Datastore.mint_identifiers max_failures candidate session drawn name n
      = (Ok minted, (session', drawn')) ->
      Z.of_nat (length minted) = n
      /\ NoDup minted
      /\ (forall v, In v minted -> ~ In v (map id_value (identifier session)))
      /\ identifier session' = identifier session ++ map (IdRow name) minted
      /\ identifier_set session' = identifier_set session
      /\ exists idxs,
           minted = map candidate idxs
           /\ StronglySorted lt idxs
           /\ Forall (fun i => (drawn <= i < drawn')%nat) idxs)
  /\ ((0 < max_failures)%nat ->
      (forall i, (drawn <= i)%nat ->
                 ~ In (candidate i) (map id_value (identifier session))) ->
      (forall i j, (drawn <= i)%nat -> (drawn <= j)%nat ->
                   candidate i = candidate j -> i = j) ->
      Datastore.mint_identifiers max_failures candidate session drawn name n
      = (Ok (map candidate (seq drawn (Z.to_nat n))),
         (Session (identifier_set session)
                  (identifier session
                   ++ map (IdRow name)
                          (map candidate (seq drawn (Z.to_nat n)))),
          (drawn + Z.to_nat n)%nat))).
Proof.
  intros Hn Hs.
  unfold Datastore.mint_identifiers, Db.mint_identifiers.
  cbn [setExists table_store]. rewrite Hs. split.
  - intros minted session' drawn'.
    destruct (@mint_loop_table max_failures candidate name (Z.to_nat n) []
                session drawn Hs)
      as [new [st' [d' [F [[Hlen ->]|[_ [_ ->]]]]]]]; [|discriminate].
    cbn [catch_permission_denied app]. intros [= <- <- <-].
    destruct F as [_ Fsets Frows Fnodup Ffresh Forder].
    split; [rewrite Hlen; lia|]. split; [exact Fnodup|].
    split; [intros v Hv; now apply has_value_not_In, Ffresh|].
    split; [exact Frows|]. split; [exact Fsets | exact Forder].
  - intros Hmax Hfresh Hinj.
    rewrite (@mint_loop_fresh max_failures candidate name (Z.to_nat n) Hmax
               [] session drawn Hs).
    + reflexivity.
    + intros i Hi. now apply has_value_not_In, Hfresh.
    + exact Hinj.
Qed.

Lemma mint_returns_n_distinct_identifiers_witness :
  let candidate := fun i : nat => [N.of_nat (97 + i)] in
  let session := Session [SetRow (py "collection") None]
                         [IdRow (py "collection") (py "a")] in
  Z.of_nat (length [py "b"; py "c"]) = 2%Z
  /\ NoDup [py "b"; py "c"]
  /\ (forall v, In v [py "b"; py "c"] ->
                ~ In v (map id_value (identifier session)))
  /\ identifier
       (Session [SetRow (py "collection") None]
                [IdRow (py "collection") (py "a");
                 IdRow (py "collection") (py "b");
                 IdRow (py "collection") (py "c")])
     = identifier session ++ map (IdRow (py "collection")) [py "b"; py "c"]
  /\ identifier_set
       (Session [SetRow (py "collection") None]
                [IdRow (py "collection") (py "a");
                 IdRow (py "collection") (py "b");
                 IdRow (py "collection") (py "c")])
     = identifier_set session
  /\ exists idxs,
       [py "b"; py "c"] = map candidate idxs
       /\ StronglySorted lt idxs
       /\ Forall (fun i => (0 <= i < 3)%nat) idxs.
Proof.
  intros candidate session.
  refine (proj1 (@mint_returns_n_distinct_identifiers 2 candidate session 0
                   (py "collection") 2 _ _) _ _ _ _).
  - lia.
  - reflexivity.
  - reflexivity.
Defined.

(** C3: for a name that is not an identifier set, and any [n],
    [mint_identifiers] raises [NotFound], built from the database layer's
    not-found error; the session is returned as it was, so no insert was
    attempted, and no candidate was drawn. *)
Theorem mint_unknown_set_raises_not_found {St : Type} {store : IdentifierStore St}
    (max_failures : nat) (candidate : nat -> str) (session : St) (drawn : nat)
    (name : str) (n : Z) :
  setExists session name = false ->
  Db.mint_identifiers max_failures candidate session drawn name n
    = (Err (IdentifierSetNotFoundError name), (session, drawn))
  /\ Datastore.mint_identifiers max_failures candidate session drawn name n
     = (Err (NotFound (IdentifierSetNotFoundError name)), (session, drawn)).
Proof.
  intros Hs. unfold Datastore.mint_identifiers, Db.mint_identifiers.
  rewrite Hs. split; reflexivity.
Qed.

Lemma mint_unknown_set_raises_not_found_witness :
  let candidate := fun i : nat => [N.of_nat (97 + i)] in
  let session := Session [SetRow (py "collection") None]
                         [IdRow (py "collection") (py "a")] in
  Db.mint_identifiers 10 candidate session 0 (py "sample") 3
    = (Err (IdentifierSetNotFoundError (py "sample")), (session, 0%nat))
  /\ Datastore.mint_identifiers 10 candidate session 0 (py "sample") 3
     = (Err (NotFound (IdentifierSetNotFoundError (py "sample"))),
        (session, 0%nat)).
Proof.
  intros candidate session.
  apply (@mint_unknown_set_raises_not_found DatabaseSession table_store
           10 candidate session 0 (py "sample") 3).
  reflexivity.
Defined.

(** ** Minting against a store that always collides *)

Lemma mint_one_colliding {St : Type} {store : IdentifierStore St}
    (candidate : nat -> str) (name : str)
    (next : St -> St) :
  (forall st c, insertIdentifier st name c = (Ok false, next st)) ->
  forall (budget : nat) (st : St) (drawn : nat),
    mint_one candidate budget name st drawn
    = (Exhausted, (Nat.iter budget next st, (drawn + budget)%nat)).
Proof.
  intros Hcollide. induction budget as [|b IH]; intros st drawn.
  - simpl. now rewrite Nat.add_0_r.
  - cbn [mint_one]. rewrite Hcollide, IH, Nat.iter_swap.
    replace (S drawn + b)%nat with (drawn + S b)%nat by lia. reflexivity.
Qed.

Lemma iter_colliding (k a : nat) :
  Nat.iter k (fun s => Colliding (S (attempts s))) (Colliding a)
  = Colliding (a + k).
Proof.
  induction k as [|k IH]; simpl.
  - now rewrite Nat.add_0_r.
  - rewrite IH. simpl. f_equal. lia.
Qed.

(** C4: against the stub store that rejects every insert,
    [mint_identifiers(name, 1)] fails with the too-many-failures error,
    which the datastore raises as [ServiceUnavailable], after exactly
    [max_failures] insert attempts, one per candidate drawn.  On the
    identifier tables the same holds when every draw is already in the
    table, and whenever a call for [n] identifiers fails this way after
    minting [m] of them, the [m] rows it committed are in the table and
    no earlier row is lost. *)
Theorem mint_fails_after_max_failures (max_failures : nat)
    (candidate : nat -> str) (name : str) :
  (forall a drawn,
      Db.mint_identifiers max_failures candidate (Colliding a) drawn name 1
      = (Err (TooManyFailuresError 0),
         (Colliding (a + max_failures), (drawn + max_failures)%nat))
      /\ Datastore.mint_identifiers max_failures candidate (Colliding a)
                                    drawn name 1
         = (Err (ServiceUnavailable (TooManyFailuresError 0)),
            (Colliding (a + max_failures), (drawn + max_failures)%nat)))
  /\ (forall session drawn,
        has_set session name = true ->
        (forall i, (drawn <= i)%nat ->
                   In (candidate i) (map id_value (identifier session))) ->
        Datastore.mint_identifiers max_failures candidate session drawn name 1
        = (Err (ServiceUnavailable (TooManyFailuresError 0)),
           (session, (drawn + max_failures)%nat)))
  /\ (forall session drawn n m session' drawn',
        has_set session name = true ->
        Datastore.mint_identifiers max_failures candidate session drawn name n
        = (Err (ServiceUnavailable (TooManyFailuresError m)),
           (session', drawn')) ->
        exists committed,
          length committed = m
          /\ (Z.of_nat m < n)%Z
          /\ NoDup committed
          /\ identifier session'
             = identifier session ++ map (IdRow name) committed
          /\ identifier_set session' = identifier_set session
          /\ (drawn + max_failures <= drawn')%nat).
Proof.
  split; [|split].
  - intros a drawn.
    unfold Datastore.mint_identifiers, Db.mint_identifiers.
    cbn [setExists always_collision]. change (Z.to_nat 1) with 1%nat.
    cbn [mint_loop].
    rewrite (@mint_one_colliding colliding_store always_collision candidate name
               (fun s => Colliding (S (attempts s))) (fun _ _ => eq_refl)).
    rewrite iter_colliding. split; reflexivity.
  - intros session drawn Hs Hall.
    unfold Datastore.mint_identifiers, Db.mint_identifiers.
    cbn [setExists table_store]. rewrite Hs.
    change (Z.to_nat 1) with 1%nat. cbn [mint_loop].
    destruct (@mint_one_table candidate name max_failures session drawn Hs)
      as [[i [Hi [Hf _]]]|[_ ->]].
    + exfalso. apply has_value_not_In in Hf. apply Hf, Hall. lia.
    + reflexivity.
  - intros session drawn n m session' drawn' Hs.
    unfold Datastore.mint_identifiers, Db.mint_identifiers.
    cbn [setExists table_store]. rewrite Hs.
    destruct (@mint_loop_table max_failures candidate name (Z.to_nat n) []
                session drawn Hs)
      as [new [st' [d' [F [[_ ->]|[Hlen [Hd ->]]]]]]]; [discriminate|].
    cbn [catch_permission_denied length Nat.add]. intros [= <- <- <-].
    destruct F as [_ Fsets Frows Fnodup _ _].
    exists new. split; [reflexivity|]. split; [lia|].
    split; [exact Fnodup|]. split; [exact Frows|]. split; [exact Fsets | exact Hd].
Qed.

Lemma mint_fails_after_max_failures_witness :
  let candidate := fun i : nat => [N.of_nat (97 + i mod 2)] in
  let session := Session [SetRow (py "collection") None]
                         [IdRow (py "collection") (py "a")] in
  let session' := Session [SetRow (py "collection") None]
                          [IdRow (py "collection") (py "a");
                           IdRow (py "collection") (py "b")] in
  exists committed,
    length committed = 1%nat
    /\ (Z.of_nat 1 < 3)%Z
    /\ NoDup committed
    /\ identifier session'
       = identifier session ++ map (IdRow (py "collection")) committed
    /\ identifier_set session' = identifier_set session
    /\ (0 + 4 <= 6)%nat.
Proof.
  intros candidate session session'.
  refine (proj2 (proj2 (@mint_fails_after_max_failures 4 candidate
                          (py "collection")))
            session 0%nat 3%Z 1%nat session' 6%nat _ _).
  - reflexivity.
  - reflexivity.
Defined.

(** * Further properties of [de_identify.py] *)

Lemma utf8_encode_app (a b : str) :
  Utf8.encode (a ++ b)
  = match Utf8.encode a, Utf8.encode b with
    | Some x, Some y => Some (x ++ y)
    | _, _ => None
    end.
Proof.
  induction a as [|c a IH]; simpl.
  - destruct (Utf8.encode b); reflexivity.
  - rewrite IH. destruct (Utf8.encode_char c) as [x|]; [|reflexivity].
    destruct (Utf8.encode a) as [xs|]; [|reflexivity].
    destruct (Utf8.encode b) as [ys|]; [|reflexivity].
    now rewrite app_assoc.
Qed.

(** The secret [generate_hash] works with: the argument when there is
    one, the environment variable otherwise. *)
Lemma generate_hash_outcome (environ : environ_t) (identifier : str)
    (secret : option str) (s : str) :
  match secret with
  | Some given => given = s
  | None => environ_get environ (py "ID3C_DEIDENTIFY_SECRET") = Some s
  end ->
  generate_hash environ identifier secret
  = match identifier, s with
    | [], _ => Err (AssertionError "Empty *identifier* provided!")
    | _, [] => Err (AssertionError "Empty *secret* provided!")
    | _, _ =>
        match Utf8.encode identifier, Utf8.encode s with
        | Some bi, Some bs => Ok (hex (Sha256.digest (bi ++ bs)))
        | _, _ => Err UnicodeEncodeError
        end
    end.
Proof.
  intros Hs. unfold generate_hash.
  assert (E : match secret with
              | Some s0 => Ok s0
              | None =>
                  match environ_get environ (py "ID3C_DEIDENTIFY_SECRET") with
                  | Some s0 => Ok s0
                  | None =>
                      Err (Exception
                        "The environment variable ID3C_DEIDENTIFY_SECRET is required.")
                  end
              end = @Ok DeIdentify.exn str s).
  { destruct secret as [given|]; [now subst | now rewrite Hs]. }
  rewrite E. unfold bind, assert, encode_utf8.
  destruct identifier as [|c i]; [reflexivity|].
  destruct s as [|d s']; [reflexivity|]. cbn [length Nat.ltb Nat.leb].
  destruct (Utf8.encode (c :: i)); [|reflexivity].
  destruct (Utf8.encode (d :: s')); reflexivity.
Qed.

Lemma Ok_inj {E A} (a b : A) : @Ok E A a = Ok b -> a = b.
Proof. now intros [= ->]. Qed.

Lemma Err_inj {E A} (a b : E) : @Err E A a = Err b -> a = b.
Proof. now intros [= ->]. Qed.

(** X1: [generate_hash] returns a digest exactly when a secret is at
    hand (the argument, or else the environment variable), the
    identifier and the secret are non-empty, and both have a UTF-8
    encoding; the value is then the hexadecimal SHA-256 digest of the two
    encodings, 64 characters long. *)
Theorem generate_hash_succeeds_iff (environ : environ_t) (identifier : str)
    (secret : option str) (h : str) :
  generate_hash environ identifier secret = Ok h
  <-> exists s bi bs,
        match secret with
        | Some given => given = s
        | None => environ_get environ (py "ID3C_DEIDENTIFY_SECRET") = Some s
        end
        /\ identifier <> [] /\ s <> []
        /\ Utf8.encode identifier = Some bi /\ Utf8.encode s = Some bs
        /\ h = hex (Sha256.digest (bi ++ bs))
        /\ length h = 64%nat.
Proof.
  split.
  - intros H.
    assert (Hsec : exists s,
               match secret with
               | Some given => given = s
               | None => environ_get environ (py "ID3C_DEIDENTIFY_SECRET") = Some s
               end).
    { destruct secret as [given|]; [now exists given|].
      destruct (environ_get environ (py "ID3C_DEIDENTIFY_SECRET")) as [s|] eqn:E;
        [now exists s|].
      unfold generate_hash in H. rewrite E in H. discriminate. }
    destruct Hsec as [s Hs]. rewrite (@generate_hash_outcome environ identifier secret s Hs) in H.
    destruct identifier as [|c i]; [discriminate|].
    destruct s as [|d s']; [discriminate|].
    destruct (Utf8.encode (c :: i)) as [bi|] eqn:Ei; [|discriminate].
    destruct (Utf8.encode (d :: s')) as [bs|] eqn:Es; [|discriminate].
    apply Ok_inj in H. subst h. exists (d :: s'), bi, bs.
    split; [exact Hs|]. split; [discriminate|]. split; [discriminate|].
    split; [first [exact Ei | reflexivity]|].
    split; [first [exact Es | reflexivity]|]. split; [reflexivity|].
    rewrite hex_length, digest_length. reflexivity.
  - intros [s [bi [bs [Hs [Hi [Hne [Ei [Es [-> _]]]]]]]]].
    rewrite (@generate_hash_outcome environ identifier secret s Hs), Ei, Es.
    destruct identifier; [congruence|]. destruct s; [congruence | reflexivity].
Qed.

Lemma generate_hash_nonempty (environ : environ_t) (identifier s : str) :
  identifier <> [] -> s <> [] ->
  generate_hash environ identifier (Some s)
  = match Utf8.encode identifier, Utf8.encode s with
    | Some bi, Some bs => Ok (hex (Sha256.digest (bi ++ bs)))
    | _, _ => Err UnicodeEncodeError
    end.
Proof.
  intros Hi Hs.
  rewrite (@generate_hash_outcome environ identifier (Some s) s eq_refl).
  destruct identifier; [congruence|]. destruct s; [congruence | reflexivity].
Qed.

(** X2: the two inputs are hashed back to back with nothing between
    them, so moving characters from the end of the identifier to the
    front of the secret does not change the outcome. *)
Theorem generate_hash_boundary_is_not_hashed (environ : environ_t)
    (a b c : str) :
  a <> [] -> c <> [] ->
  generate_hash environ (a ++ b) (Some c)
  = generate_hash environ a (Some (b ++ c)).
Proof.
  intros Ha Hc.
  rewrite !generate_hash_nonempty, !utf8_encode_app.
  - destruct (Utf8.encode a) as [ea|]; [|reflexivity].
    destruct (Utf8.encode b) as [eb|]; [|reflexivity].
    destruct (Utf8.encode c) as [ec|]; [|reflexivity].
    now rewrite app_assoc.
  - exact Ha.
  - intros E. apply app_eq_nil in E. now destruct E.
  - intros E. apply app_eq_nil in E. now destruct E.
  - exact Hc.
Qed.

Lemma generate_hash_boundary_is_not_hashed_witness :
  generate_hash [] (py "foo" ++ py "bar") (Some (py "secret"))
  = generate_hash [] (py "foo") (Some (py "bar" ++ py "secret")).
Proof.
  apply (@generate_hash_boundary_is_not_hashed [] (py "foo") (py "bar")
           (py "secret")); discriminate.
Defined.

(** X3: a secret given as an argument makes the environment irrelevant,
    and a secret taken from [ID3C_DEIDENTIFY_SECRET] behaves as the same
    secret given as an argument, errors included. *)
Theorem generate_hash_secret_sources_agree (environ other : environ_t)
    (identifier s : str) :
  generate_hash environ identifier (Some s)
  = generate_hash other identifier (Some s)
  /\ (environ_get environ (py "ID3C_DEIDENTIFY_SECRET") = Some s ->
      generate_hash environ identifier None
      = generate_hash other identifier (Some s)).
Proof.
  split.
  - now rewrite !(@generate_hash_outcome _ identifier (Some s) s eq_refl).
  - intros E.
    rewrite (@generate_hash_outcome environ identifier None s E).
    now rewrite (@generate_hash_outcome other identifier (Some s) s eq_refl).
Qed.

Lemma generate_hash_secret_sources_agree_witness :
  generate_hash [(py "ID3C_DEIDENTIFY_SECRET", py "abadsecret")] (py "foo") None
  = generate_hash [] (py "foo") (Some (py "abadsecret")).
Proof.
  refine (proj2 (@generate_hash_secret_sources_agree
                   [(py "ID3C_DEIDENTIFY_SECRET", py "abadsecret")] []
                   (py "foo") (py "abadsecret")) _).
  reflexivity.
Defined.

(** ** The frame written by [de_identify] *)

Lemma row_get_map_Some {A} (labels : list str) (r : list A) (c : str) :
  row_get labels (map (@Some A) r) c = option_map (@Some A) (row_get labels r c).
Proof.
  unfold row_get. destruct (position c labels) as [p|]; [|reflexivity].
  apply nth_error_map.
Qed.

Lemma position_some_In (label : str) (labels : list str) (p : nat) :
  position label labels = Some p -> In label labels.
Proof.
  intros H. destruct (in_dec (list_eq_dec N.eq_dec) label labels) as [Hin|Hn];
    [exact Hin|]. apply position_not_In in Hn. congruence.
Qed.

Lemma position_inj (c d : str) (labels : list str) (p : nat) :
  position c labels = Some p -> position d labels = Some p -> c = d.
Proof.
  revert p. induction labels as [|l labels IH]; simpl; intros p; [discriminate|].
  destruct (str_eqb l c) eqn:Ec, (str_eqb l d) eqn:Ed.
  - apply str_eqb_eq in Ec, Ed. congruence.
  - intros [= <-]. destruct (position d labels); discriminate.
  - destruct (position c labels); [|discriminate]. intros [= <-]. discriminate.
  - destruct (position c labels) as [q|]; [|discriminate].
    destruct (position d labels) as [q'|]; [|discriminate].
    simpl. intros [= <-] [= ->]. now apply (IH q).
Qed.

Lemma nth_error_replace_at_other {A} (p q : nat) (v : A) (r : list A) :
  p <> q -> nth_error (replace_at p v r) q = nth_error r q.
Proof.
  revert q r. induction p as [|p IH]; intros [|q] [|a r] H; simpl;
    try reflexivity; try congruence.
  apply IH. congruence.
Qed.

Lemma replace_at_length {A} (p : nat) (v : A) (r : list A) :
  length (replace_at p v r) = length r.
Proof.
  revert r. induction p as [|p IH]; intros [|a r]; simpl; try reflexivity.
  now rewrite IH.
Qed.

Lemma position_app_other (c label : str) (labels : list str) :
  c <> label -> position c (labels ++ [label]) = position c labels.
Proof.
  intros Hne. induction labels as [|l labels IH]; simpl.
  - assert (E : str_eqb label c = false) by (apply str_eqb_neq; congruence).
    now rewrite E.
  - destruct (str_eqb l c); [reflexivity | now rewrite IH].
Qed.

(** Setting one column leaves the cells under every other label alone. *)
Lemma setitem_row_get_other {A} (labels : list str) (label c : str)
    (r : list A) (v : A) :
  length r = length labels -> c <> label ->
  match position label labels with
  | Some p => row_get labels (replace_at p v r) c
  | None => row_get (labels ++ [label]) (r ++ [v]) c
  end = row_get labels r c.
Proof.
  intros Hlen Hne. destruct (position label labels) as [p|] eqn:Ep; unfold row_get.
  - destruct (position c labels) as [q|] eqn:Eq; [|reflexivity].
    apply nth_error_replace_at_other. intros ->.
    apply Hne. now apply (position_inj _ _ _ Eq Ep).
  - rewrite position_app_other by assumption.
    destruct (position c labels) as [q|] eqn:Eq; [|reflexivity].
    apply position_lt in Eq. apply nth_error_app1. lia.
Qed.

Lemma position_none_mem (label : str) (labels : list str) :
  position label labels = None <-> str_mem label labels = false.
Proof.
  split; intros H.
  - destruct (str_mem label labels) eqn:E; [|reflexivity].
    apply str_mem_In, position_In in E. destruct E as [p Hp]. congruence.
  - apply position_not_In. intros Hin. apply str_mem_In in Hin. congruence.
Qed.

Lemma Forall2_map_combine {A B C D} (P : A -> D -> Prop) (f : A -> B)
    (g : B * C -> D) (rs : list A) (hs : list C) :
  length hs = length rs ->
  (forall r h, In r rs -> P r (g (f r, h))) ->
  Forall2 P rs (map g (combine (map f rs) hs)).
Proof.
  revert hs. induction rs as [|r rs IH]; intros [|h hs] Hlen HP; simpl in *;
    try discriminate; constructor.
  - apply HP. now left.
  - apply IH; [lia|]. intros r' h' Hin. apply HP. now right.
Qed.

Lemma Forall2_length_eq {A B} (R : A -> B -> Prop) (l : list A) (l' : list B) :
  Forall2 R l l' -> length l = length l'.
Proof. induction 1; simpl; congruence. Qed.

Lemma dropped_row_length {A} (labels dropped : list str) (r : list A) :
  length r = length labels ->
  length (map snd (filter (fun lv => negb (str_mem (fst lv) dropped))
                          (combine labels r)))
  = length (filter (fun l => negb (str_mem l dropped)) labels).
Proof.
  revert r. induction labels as [|l labels IH]; intros [|a r] H; simpl in *;
    try discriminate; [reflexivity|].
  destruct (str_mem l dropped); simpl; rewrite IH by lia; reflexivity.
Qed.

(** A successful run logs nothing. *)
Lemma de_identify_success_log (environ : environ_t) (cols : list str)
    (df : DataFrame str) (drop_input_columns : bool)
    (out : DataFrame (option str)) (log : list log_record) :
  de_identify environ cols df drop_input_columns = (Ok out, log) -> log = [].
Proof.
  unfold de_identify, extract_fields_from_input.
  destruct (getitem df cols) as [fields|e]; [|discriminate].
  destruct (apply_join fields) as [joined|frame]; [|discriminate].
  destruct (mapM (hash_or_none environ) joined) as [hashes|e]; [|discriminate].
  destruct drop_input_columns.
  - destruct (drop _ cols) as [dropped|e]; [|discriminate]. congruence.
  - congruence.
Qed.

(** The column labels after [output_df['hash'] = hashes]. *)
Lemma setitem_columns {A} (df : DataFrame A) (label : str) (series : list A) :
  columns (setitem df label series)
  = if str_mem label (columns df) then columns df else columns df ++ [label].
Proof.
  unfold setitem. destruct (position label (columns df)) as [p|] eqn:E.
  - apply position_some_In, str_mem_In in E. now rewrite E.
  - apply position_none_mem in E. now rewrite E.
Qed.

(** X4: without [--drop-input-columns] the output has the input's rows in
    the input's order, the input's columns with [hash] added as the last
    one (or overwritten when the input already has a column of that
    name), one cell per column in every row, and every input cell under
    another label unchanged; nothing is logged. *)
Theorem de_identify_keeps_input_cells (environ : environ_t) (cols : list str)
    (df : DataFrame str) (out : DataFrame (option str))
    (log : list log_record) :
  well_formed df ->
  de_identify environ cols df false = (Ok out, log) ->
  log = []
  /\ columns out
     = (if str_mem (py "hash") (columns df) then columns df
        else columns df ++ [py "hash"])
  /\ Forall2 (fun r o =>
                length o = length (columns out)
                /\ forall c, c <> py "hash" ->
                     row_get (columns out) o c
                     = option_map (@Some str) (row_get (columns df) r c))
             (rows df) (rows out).
Proof.
  intros [_ Hwf] H.
  pose proof (@de_identify_success_log environ cols df false out log H) as Hlog.
  destruct (de_identify_success _ _ _ _ H) as [_ [hashes [Hm ->]]].
  apply mapM_Forall2, Forall2_length_eq in Hm. rewrite length_map in Hm.
  pose proof (setitem_columns (copy df) (py "hash") hashes) as Hcols.
  change (columns (copy df)) with (columns df) in Hcols.
  split; [exact Hlog|]. split; [exact Hcols|].
  rewrite Hcols. unfold setitem, copy. cbn [columns rows].
  rewrite Forall_forall in Hwf.
  pose proof (@setitem_row_get_other (option str) (columns df) (py "hash")) as Hget.
  destruct (position (py "hash") (columns df)) as [p|] eqn:Ep.
  - apply position_some_In, str_mem_In in Ep. rewrite Ep.
    apply Forall2_map_combine; [congruence|]. intros r h Hr. cbn [fst snd].
    specialize (Hwf r Hr). split.
    + now rewrite replace_at_length, length_map.
    + intros c Hc. rewrite <- row_get_map_Some. apply Hget; [|exact Hc].
      now rewrite length_map.
  - apply position_none_mem in Ep. rewrite Ep.
    apply Forall2_map_combine; [congruence|]. intros r h Hr. cbn [fst snd].
    specialize (Hwf r Hr). split.
    + rewrite !length_app, length_map. simpl. lia.
    + intros c Hc. rewrite <- row_get_map_Some. apply Hget; [|exact Hc].
      now rewrite length_map.
Qed.

Lemma de_identify_keeps_input_cells_witness :
  let df := Frame [py "a"; py "b"] [[py "x"; py "y"]] in
  let out :=
    Frame [py "a"; py "b"; py "hash"]
      [[Some (py "x"); Some (py "y");
        Some (py "6dd90c7b6598b3e4753831db997e506928077d7a82967388c8bc2780ab85627c")]]
  in
  @nil log_record = []
  /\ columns out
     = (if str_mem (py "hash") (columns df) then columns df
        else columns df ++ [py "hash"])
  /\ Forall2 (fun r o =>
                length o = length (columns out)
                /\ forall c, c <> py "hash" ->
                     row_get (columns out) o c
                     = option_map (@Some str) (row_get (columns df) r c))
             (rows df) (rows out).
Proof.
  intros df out.
  apply (@de_identify_keeps_input_cells
           [(py "ID3C_DEIDENTIFY_SECRET", py "abadsecret")]
           [py "a"; py "b"] df out []).
  - split.
    + cbv. repeat constructor; simpl; intuition discriminate.
    + repeat constructor.
  - vm_compute. reflexivity.
Defined.

(** X5: with [--drop-input-columns] none of the requested columns is left
    in the output, every row has one cell per remaining column, and the
    cells under the labels that were neither requested nor [hash] are the
    input's; nothing is logged. *)
Theorem de_identify_drops_requested_columns (environ : environ_t)
    (cols : list str) (df : DataFrame str) (out : DataFrame (option str))
    (log : list log_record) :
  well_formed df ->
  de_identify environ cols df true = (Ok out, log) ->
  log = []
  /\ (forall c, In c cols -> ~ In c (columns out))
  /\ (forall c, In c (columns out) <->
                ~ In c cols /\ (In c (columns df) \/ c = py "hash"))
  /\ Forall2 (fun r o =>
                length o = length (columns out)
                /\ forall c, ~ In c cols -> c <> py "hash" ->
                     row_get (columns out) o c
                     = option_map (@Some str) (row_get (columns df) r c))
             (rows df) (rows out).
Proof.
  intros [_ Hwf] H.
  pose proof (@de_identify_success_log environ cols df true out log H) as Hlog.
  destruct (de_identify_success _ _ _ _ H) as [_ [hashes [Hm Hout]]].
  apply mapM_Forall2, Forall2_length_eq in Hm. rewrite length_map in Hm.
  pose proof (setitem_columns (copy df) (py "hash") hashes) as Hcols.
  change (columns (copy df)) with (columns df) in Hcols.
  unfold drop in Hout. destruct (filter _ cols); [|discriminate].
  apply Ok_inj in Hout. subst out. cbn [columns rows].
  assert (Hkept : forall c,
             In c (filter (fun l => negb (str_mem l cols))
                          (columns (setitem (copy df) (py "hash") hashes)))
             <-> ~ In c cols /\ (In c (columns df) \/ c = py "hash")).
  { intros c. rewrite filter_In, Hcols. split.
    - intros [Hin Hn]. split.
      + intros Hc. apply str_mem_In in Hc. now rewrite Hc in Hn.
      + destruct (str_mem (py "hash") (columns df)); [now left|].
        apply in_app_or in Hin. destruct Hin as [Hin|[<-|[]]]; [now left | now right].
    - intros [Hn Hin]. split.
      + destruct (str_mem (py "hash") (columns df)) eqn:Eh.
        * destruct Hin as [Hin| ->]; [exact Hin | now apply str_mem_In].
        * apply in_or_app. destruct Hin as [Hin| ->]; [now left | right; now left].
      + destruct (str_mem c cols) eqn:Ec; [|reflexivity].
        apply str_mem_In in Ec. contradiction. }
  split; [exact Hlog|]. split; [|split; [exact Hkept|]].
  - intros c Hc Hin. apply Hkept in Hin. now destruct Hin.
  - rewrite Forall_forall in Hwf.
    pose proof (@setitem_row_get_other (option str) (columns df) (py "hash"))
      as Hget.
    unfold setitem, copy. cbn [columns rows].
    destruct (position (py "hash") (columns df)) as [p|] eqn:Ep;
      cbn [columns rows]; rewrite map_map;
      (apply Forall2_map_combine; [congruence|]); intros r h Hr; cbn [fst snd];
      specialize (Hwf r Hr); (split;
        [ apply dropped_row_length;
          first [ now rewrite replace_at_length, length_map
                | rewrite !length_app, length_map; simpl; lia ]
        | intros c Hc Hh; rewrite drop_row_get by assumption;
          rewrite <- row_get_map_Some; apply Hget;
          [now rewrite length_map | exact Hh] ]).
Qed.

Lemma de_identify_drops_requested_columns_witness :
  let out :=
    Frame [py "b"; py "hash"]
      [[Some (py "y");
        Some (py "d5459661dd5694e10d4cbc03526d2598bdb71a595f6a8dbfe79a71e17b264bc2")]]
  in
  ~ In (py "a") (columns out).
Proof.
  intros out.
  refine (proj1 (proj2 (@de_identify_drops_requested_columns
            [(py "ID3C_DEIDENTIFY_SECRET", py "abadsecret")]
            [py "a"] (Frame [py "a"; py "b"] [[py "x"; py "y"]]) out [] _ _))
          (py "a") _).
  - split.
    + cbv. repeat constructor; simpl; intuition discriminate.
    + repeat constructor.
  - vm_compute. reflexivity.
  - now left.
Defined.

(** ** What [de_identify] logs and raises *)

Lemma generate_hash_error_kind (environ : environ_t) (x : str)
    (secret : option str) (e : DeIdentify.exn) :
  generate_hash environ x secret = Err e ->
  forall labels, e <> KeyError labels.
Proof.
  unfold generate_hash, bind, assert, encode_utf8. intros H labels.
  destruct secret as [s|];
    [|destruct (environ_get environ _) as [s|];
      [|apply Err_inj in H; subst e; discriminate]];
    (destruct (0 <? length x)%nat; [|apply Err_inj in H; subst e; discriminate]);
    (destruct (0 <? length s)%nat; [|apply Err_inj in H; subst e; discriminate]);
    (destruct (Utf8.encode x); [|apply Err_inj in H; subst e; discriminate]);
    (destruct (Utf8.encode s);
       [discriminate | apply Err_inj in H; subst e; discriminate]).
Qed.

Lemma setitem_columns_incl {A} (df : DataFrame A) (label : str)
    (series : list A) :
  incl (columns df) (columns (setitem df label series)).
Proof.
  rewrite setitem_columns. destruct (str_mem label (columns df)).
  - apply incl_refl.
  - apply incl_appl, incl_refl.
Qed.

(** The drop step finds every label it is asked to drop. *)
Lemma drop_after_setitem (cols : list str) (df : DataFrame str)
    (hashes : list (option str)) :
  incl cols (columns df) ->
  exists dropped,
    drop (setitem (copy df) (py "hash") hashes) cols = Ok dropped.
Proof.
  intros Hincl. unfold drop.
  replace (filter _ cols) with (@nil str); [eexists; reflexivity|].
  symmetry. apply filter_nil_iff. intros c Hc.
  assert (Hin : In c (columns (setitem (copy df) (py "hash") hashes))).
  { apply setitem_columns_incl. cbn [copy columns]. now apply Hincl. }
  apply str_mem_In in Hin. now rewrite Hin.
Qed.

(** X6: [de_identify] logs in one case only: a requested column is
    missing; it then raises [KeyError] for the missing labels and logs
    that error with the input's columns.  In every other run the log is
    empty and no [KeyError] is raised: hashing never raises one, and the
    drop step of lines 65-70 always finds its columns, so its error
    branch is never taken. *)
Theorem de_identify_logs_only_missing_columns (environ : environ_t)
    (cols : list str) (df : DataFrame str) (drop_input_columns : bool)
    (outcome : result DeIdentify.exn (DataFrame (option str)))
    (log : list log_record) :
  de_identify environ cols df drop_input_columns = (outcome, log) ->
  (incl cols (columns df)
   /\ log = []
   /\ forall labels, outcome <> Err (KeyError labels))
  \/ (exists missing,
        missing <> []
        /\ (forall m, In m missing <-> In m cols /\ ~ In m (columns df))
        /\ outcome = Err (KeyError missing)
        /\ log = [ErrorInputColumns (KeyError missing) (columns df)]).
Proof.
  intros H. unfold de_identify, extract_fields_from_input in H.
  destruct (getitem_outcome df cols) as [[Hincl Hg]|[missing [Hne [Hg Hm]]]];
    rewrite Hg in H.
  - left. split; [exact Hincl|].
    destruct (apply_join _) as [joined|frame];
      [|injection H as <- <-; split; [reflexivity | discriminate]].
    destruct (mapM (hash_or_none environ) joined) as [hashes|e] eqn:Em.
    + destruct drop_input_columns.
      * destruct (@drop_after_setitem cols df hashes Hincl) as [dropped Hd].
        rewrite Hd in H. injection H as <- <-.
        split; [reflexivity | discriminate].
      * injection H as <- <-. split; [reflexivity | discriminate].
    + injection H as <- <-. split; [reflexivity|]. intros labels E.
      apply Err_inj in E. subst e.
      destruct (mapM_error _ _ Em) as [x [_ Hx]].
      unfold hash_or_none in Hx. destruct x as [|c x]; [discriminate|].
      unfold bind in Hx.
      destruct (generate_hash environ (c :: x) None) as [h|e] eqn:Eg;
        [discriminate|].
      apply Err_inj in Hx. subst e.
      now apply (@generate_hash_error_kind environ (c :: x) None _ Eg labels).
  - right. injection H as <- <-. exists missing.
    split; [exact Hne|]. split; [exact Hm|]. split; reflexivity.
Qed.

Lemma de_identify_logs_only_missing_columns_witness :
  (incl [py "b"] [py "a"]
   /\ [ErrorInputColumns (KeyError [py "b"]) [py "a"]] = []
   /\ forall labels,
        @Err DeIdentify.exn (DataFrame (option str)) (KeyError [py "b"])
        <> Err (KeyError labels))
  \/ (exists missing,
        missing <> []
        /\ (forall m, In m missing <-> In m [py "b"] /\ ~ In m [py "a"])
        /\ @Err DeIdentify.exn (DataFrame (option str)) (KeyError [py "b"])
           = Err (KeyError missing)
        /\ [ErrorInputColumns (KeyError [py "b"]) [py "a"]]
           = [ErrorInputColumns (KeyError missing) [py "a"]]).
Proof.
  apply (@de_identify_logs_only_missing_columns [] [py "b"]
           (Frame [py "a"] [[py "x"]]) true).
  reflexivity.
Defined.

Lemma Forall2_combine_In {A B} (R : A -> B -> Prop) (l : list A) (l' : list B)
    (a : A) (b : B) :
  Forall2 R l l' -> In (a, b) (combine l l') -> R a b.
Proof.
  induction 1 as [|x y l l' Hxy _ IH]; simpl; [intros []|].
  intros [[= <- <-]|Hin]; [exact Hxy | now apply IH].
Qed.

Lemma hashed_as_functional (environ : environ_t) (x : str)
    (c1 c2 : option str) :
  hashed_as environ x c1 -> hashed_as environ x c2 -> c1 = c2.
Proof.
  intros [[E1 ->]|[N1 [h1 [-> H1]]]] [[E2 ->]|[N2 [h2 [-> H2]]]];
    try reflexivity; try contradiction.
  rewrite H1 in H2. apply Ok_inj in H2. now subst.
Qed.

(** X7: the hash of a row depends on the joined value only: two rows of
    one run whose requested values join to the same string get the same
    [hash] cell, also when the values themselves differ (["a b"], ["c"]
    and ["a"], ["b c"] both join to ["a b c"]). *)
Theorem de_identify_hash_depends_on_joined_value (environ : environ_t)
    (cols : list str) (df : DataFrame str) (drop_input_columns : bool)
    (out : DataFrame (option str)) (log : list log_record)
    (r1 r2 : list str) (o1 o2 : list (option str)) (vs1 vs2 : list str) :
  well_formed df ->
  (drop_input_columns = true -> ~ In (py "hash") cols) ->
  de_identify environ cols df drop_input_columns = (Ok out, log) ->
  In (r1, o1) (combine (rows df) (rows out)) ->
  In (r2, o2) (combine (rows df) (rows out)) ->
  record_values (columns df) r1 cols vs1 ->
  record_values (columns df) r2 cols vs2 ->
  join (py " ") vs1 = join (py " ") vs2 ->
  row_get (columns out) o1 (py "hash") = row_get (columns out) o2 (py "hash").
Proof.
  intros Hwf Hdrop H In1 In2 Hv1 Hv2 Hj.
  pose proof (@de_identify_hash_cells environ cols df drop_input_columns
                out log Hwf Hdrop H) as Hcells.
  destruct (@Forall2_combine_In _ _ _ _ _ r1 o1 Hcells In1) as [ws1 [c1 [Hw1 [Hh1 ->]]]].
  destruct (@Forall2_combine_In _ _ _ _ _ r2 o2 Hcells In2) as [ws2 [c2 [Hw2 [Hh2 ->]]]].
  rewrite (record_values_functional Hw1 Hv1) in Hh1.
  rewrite (record_values_functional Hw2 Hv2), <- Hj in Hh2.
  f_equal. now apply (hashed_as_functional Hh1 Hh2).
Qed.

Lemma de_identify_hash_depends_on_joined_value_witness :
  let h :=
    Some (py "96e4d21685ea12af294dc4c78ee8e8800da0282696bf41a71cee6c98498eb56a")
  in
  row_get [py "p"; py "q"; py "hash"]
          [Some (py "a b"); Some (py "c"); h] (py "hash")
  = row_get [py "p"; py "q"; py "hash"]
            [Some (py "a"); Some (py "b c"); h] (py "hash").
Proof.
  intros h.
  apply (@de_identify_hash_depends_on_joined_value
           [(py "ID3C_DEIDENTIFY_SECRET", py "abadsecret")]
           [py "p"; py "q"]
           (Frame [py "p"; py "q"] [[py "a b"; py "c"]; [py "a"; py "b c"]])
           false
           (Frame [py "p"; py "q"; py "hash"]
              [[Some (py "a b"); Some (py "c"); h];
               [Some (py "a"); Some (py "b c"); h]])
           []
           [py "a b"; py "c"] [py "a"; py "b c"]
           [Some (py "a b"); Some (py "c"); h]
           [Some (py "a"); Some (py "b c"); h]
           [py "a b"; py "c"] [py "a"; py "b c"]).
  - split.
    + cbv. repeat constructor; simpl; intuition discriminate.
    + repeat constructor.
  - discriminate.
  - vm_compute. reflexivity.
  - left. reflexivity.
  - right. left. reflexivity.
  - repeat constructor.
  - repeat constructor.
  - reflexivity.
Defined.

(** ** Running [de_identify] without the secret *)

Lemma hash_or_none_without_secret (environ : environ_t) (x : str) :
  environ_get environ (py "ID3C_DEIDENTIFY_SECRET") = None ->
  hash_or_none environ x
  = match x with
    | [] => Ok None
    | _ =>
        Err (Exception
               "The environment variable ID3C_DEIDENTIFY_SECRET is required.")
    end.
Proof.
  intros E. destruct x as [|c x]; [reflexivity|].
  unfold hash_or_none, generate_hash. rewrite E. reflexivity.
Qed.

Lemma mapM_without_secret (environ : environ_t) (joined : list str) :
  environ_get environ (py "ID3C_DEIDENTIFY_SECRET") = None ->
  (Forall (fun j => j = []) joined ->
   mapM (hash_or_none environ) joined = Ok (map (fun _ => None) joined))
  /\ (Exists (fun j => j <> []) joined ->
      mapM (hash_or_none environ) joined
      = Err (Exception
               "The environment variable ID3C_DEIDENTIFY_SECRET is required.")).
Proof.
  intros E. induction joined as [|j joined [IHall IHex]]; split.
  - reflexivity.
  - intros H. inversion H.
  - intros H. inversion H as [|? ? Hj Hrest]; subst.
    simpl. unfold bind. now rewrite (IHall Hrest).
  - intros H. cbn [mapM]. rewrite (@hash_or_none_without_secret environ j E).
    destruct j as [|c j]; [|reflexivity].
    inversion H as [? ? Hj|? ? Hrest]; subst; [congruence|].
    unfold bind. now rewrite (IHex Hrest).
Qed.

(** X8: when [ID3C_DEIDENTIFY_SECRET] is not set and the requested
    columns exist, [de_identify] succeeds on an input with rows exactly
    when every row's requested values join to the empty string, and then
    every [hash] cell is null; one row with a non-empty joined value makes
    the command fail with the exception asking for the variable.  On an
    input without rows, with a column requested, it fails with
    [AttributeError], since line 58 then hands a frame to line 60. *)
Theorem de_identify_without_secret (environ : environ_t) (cols : list str)
    (df : DataFrame str) (drop_input_columns : bool) :
  environ_get environ (py "ID3C_DEIDENTIFY_SECRET") = None ->
  well_formed df ->
  incl cols (columns df) ->
  (rows df <> [] ->
   Forall (fun r => exists vs, record_values (columns df) r cols vs
                               /\ join (py " ") vs = [])
          (rows df) ->
   exists out,
     de_identify environ cols df drop_input_columns = (Ok out, [])
     /\ ((drop_input_columns = true -> ~ In (py "hash") cols) ->
         Forall (fun o => row_get (columns out) o (py "hash") = Some None)
                (rows out)))
  /\ (Exists (fun r => exists vs, record_values (columns df) r cols vs
                                  /\ join (py " ") vs <> [])
             (rows df) ->
      de_identify environ cols df drop_input_columns
      = (Err (Exception
                "The environment variable ID3C_DEIDENTIFY_SECRET is required."),
         []))
  /\ (rows df = [] -> cols <> [] ->
      de_identify environ cols df drop_input_columns
      = (Err AttributeError, [])).
Proof.
  intros E Hwf Hincl.
  set (joined := map (fun r => join (py " ")
                        (flat_map (fun l => cells (row_get (columns df) r l)) cols))
                     (rows df)).
  assert (Hrun : rows df <> [] ->
                 de_identify environ cols df drop_input_columns
                 = match mapM (hash_or_none environ) joined with
                   | Err error => (Err error, [])
                   | Ok hashes =>
                       if drop_input_columns then
                         match drop (setitem (copy df) (py "hash") hashes) cols with
                         | Ok dropped => (Ok dropped, [])
                         | Err error =>
                             (Err error,
                              [] ++ [ErrorColumns error
                                       (columns (setitem (copy df) (py "hash") hashes))])
                         end
                       else (Ok (setitem (copy df) (py "hash") hashes), [])
                   end).
  { intros Hrows.
    rewrite (@de_identify_run environ cols df drop_input_columns Hincl).
    unfold joined. destruct (rows df) as [|r rs]; [congruence | reflexivity]. }
  assert (Hsel : forall r, In r (rows df) ->
                 record_values (columns df) r cols
                   (flat_map (fun l => cells (row_get (columns df) r l)) cols)).
  { intros r Hr. destruct Hwf as [_ Hrows]. rewrite Forall_forall in Hrows.
    apply select_present; [now apply Hrows | exact Hincl]. }
  destruct (@mapM_without_secret environ joined E) as [Hall Hex].
  split; [|split].
  - intros Hrows Hempty.
    assert (Hj : Forall (fun j => j = []) joined).
    { unfold joined. apply Forall_map. rewrite Forall_forall in *.
      intros r Hr. destruct (Hempty r Hr) as [vs [Hvs Hnil]].
      now rewrite (record_values_functional (Hsel r Hr) Hvs). }
    rewrite (Hrun Hrows), (Hall Hj). cbv zeta.
    assert (Hout : exists out,
               (if drop_input_columns
                then match drop (setitem (copy df) (py "hash")
                                   (map (fun _ => None) joined)) cols with
                     | Ok dropped => (Ok dropped, [])
                     | Err error =>
                         (Err error,
                          [] ++ [ErrorColumns error
                                   (columns (setitem (copy df) (py "hash")
                                      (map (fun _ => None) joined)))])
                     end
                else (Ok (setitem (copy df) (py "hash")
                            (map (fun _ => None) joined)), []))
               = (@Ok DeIdentify.exn _ out, @nil log_record)).
    { destruct drop_input_columns.
      - destruct (@drop_after_setitem cols df (map (fun _ => None) joined) Hincl)
          as [dropped ->]. now exists dropped.
      - eexists. reflexivity. }
    destruct Hout as [out Hout]. exists out. split; [exact Hout|].
    intros Hdrop.
    assert (Hde : de_identify environ cols df drop_input_columns = (Ok out, []))
      by now rewrite (Hrun Hrows), (Hall Hj).
    pose proof (@de_identify_hash_cells environ cols df drop_input_columns
                  out [] Hwf Hdrop Hde) as Hcells.
    clear - Hcells Hempty. revert Hempty.
    induction Hcells as [|r o rs os [vs [cell [Hvs [Hh Hget]]]] _ IH];
      intros Hempty; constructor.
    + inversion Hempty as [|? ? [ws [Hws Hnil]] _]; subst.
      rewrite (record_values_functional Hvs Hws), Hnil in Hh.
      destruct Hh as [[_ ->]|[Hne _]]; [exact Hget | congruence].
    + apply IH. now inversion Hempty.
  - intros Hsome.
    assert (Hrows : rows df <> []).
    { intros Hnil. rewrite Hnil in Hsome. inversion Hsome. }
    assert (Hj : Exists (fun j => j <> []) joined).
    { unfold joined. apply Exists_exists. apply Exists_exists in Hsome.
      destruct Hsome as [r [Hr [vs [Hvs Hne]]]].
      exists (join (py " ")
                (flat_map (fun l => cells (row_get (columns df) r l)) cols)).
      split.
      - apply in_map_iff. now exists r.
      - now rewrite (record_values_functional (Hsel r Hr) Hvs). }
    now rewrite (Hrun Hrows), (Hex Hj).
  - intros Hrows Hcols.
    rewrite (@de_identify_run environ cols df drop_input_columns Hincl), Hrows.
    destruct cols; [congruence | reflexivity].
Qed.

Lemma de_identify_without_secret_witness :
  de_identify [] [py "a"] (Frame [py "a"; py "b"] [[py ""; py "y"]; [py "x"; py ""]])
              false
  = (Err (Exception
            "The environment variable ID3C_DEIDENTIFY_SECRET is required."),
     []).
Proof.
  refine (proj1 (proj2 (@de_identify_without_secret [] [py "a"]
                   (Frame [py "a"; py "b"] [[py ""; py "y"]; [py "x"; py ""]])
                   false _ _ _)) _).
  - reflexivity.
  - split.
    + cbv. repeat constructor; simpl; intuition discriminate.
    + repeat constructor.
  - cbv. intros c [<-|[]]. now left.
  - right. left. exists [py "x"]. split; [repeat constructor | discriminate].
Defined.

(** * Further properties of [datastore.py] *)

Lemma find_by_name (rows : list identifier_set_row) (name : str) :
  match find (fun r => str_eqb (set_name r) name) rows with
  | Some r => In r rows /\ set_name r = name
  | None => ~ In name (map set_name rows)
  end.
Proof.
  induction rows as [|r rows IH]; simpl; [tauto|].
  destruct (str_eqb (set_name r) name) eqn:E.
  - apply str_eqb_eq in E. split; [now left | exact E].
  - apply str_eqb_neq in E.
    destruct (find _ rows) as [r'|].
    + destruct IH as [Hin Hn]. split; [now right | exact Hn].
    + intros [H|H]; [contradiction | now apply IH].
Qed.

(** A role that may not read the table of sets is refused by both
    lookups, and the refusal is logged. *)
Lemma fetch_forbidden (role : grants) (session : DatabaseSession) (name : str) :
  may_select_sets role = false ->
  IdentifierSets.fetch_identifier_sets role session
  = (Err IdentifierSets.Forbidden,
     [IdentifierSets.LogErrorForbidden InsufficientPrivilege])
  /\ IdentifierSets.fetch_identifier_set role session name
     = (Err IdentifierSets.Forbidden,
        [IdentifierSets.LogErrorForbidden InsufficientPrivilege]).
Proof.
  intros H. unfold IdentifierSets.fetch_identifier_sets,
    IdentifierSets.fetch_identifier_set.
  rewrite H. split; reflexivity.
Qed.

(** X9: for a role that may read the table of sets,
    [fetch_identifier_set] finds a set exactly when
    [fetch_identifier_sets] lists one of that name, and returns a listed
    row of that name, logging nothing; for a name that is not listed it
    raises [NotFound] with the message
    ["Identifier set «name» not found"] and logs the same message.  For a
    role that may not read the table both lookups raise [Forbidden] and
    log the database's refusal. *)
Theorem fetch_identifier_set_agrees_with_listing (role : grants)
    (session : DatabaseSession) (name : str) :
  (may_select_sets role = true ->
   exists listed,
     IdentifierSets.fetch_identifier_sets role session = (Ok listed, [])
     /\ listed = identifier_set session
     /\ (In name (map set_name listed) ->
         exists r,
           IdentifierSets.fetch_identifier_set role session name = (Ok r, [])
           /\ In r listed /\ set_name r = name)
     /\ (~ In name (map set_name listed) ->
         let message :=
           (py "Identifier set " ++ [0xAB] ++ name ++ [0xBB]
            ++ py " not found")%N in
         IdentifierSets.fetch_identifier_set role session name
         = (Err (IdentifierSets.NotFound message),
            [IdentifierSets.LogError message])))
  /\ (may_select_sets role = false ->
      IdentifierSets.fetch_identifier_sets role session
      = (Err IdentifierSets.Forbidden,
         [IdentifierSets.LogErrorForbidden InsufficientPrivilege])
      /\ IdentifierSets.fetch_identifier_set role session name
         = (Err IdentifierSets.Forbidden,
            [IdentifierSets.LogErrorForbidden InsufficientPrivilege])).
Proof.
  split; [|apply fetch_forbidden].
  intros Hrole. exists (identifier_set session).
  unfold IdentifierSets.fetch_identifier_sets,
    IdentifierSets.fetch_identifier_set, IdentifierSets.fetch_row_by_name.
  rewrite Hrole. split; [reflexivity|]. split; [reflexivity|].
  pose proof (find_by_name (identifier_set session) name) as H.
  destruct (find _ (identifier_set session)) as [r|]; split.
  - intros _. exists r. now split.
  - intros Hn. destruct H as [Hin <-]. exfalso. apply Hn.
    now apply in_map.
  - intros Hin. contradiction.
  - reflexivity.
Qed.

Lemma fetch_identifier_set_agrees_with_listing_witness :
  IdentifierSets.fetch_identifier_sets (Grants false true)
    (Session [SetRow (py "sample") None] [])
  = (Err IdentifierSets.Forbidden,
     [IdentifierSets.LogErrorForbidden InsufficientPrivilege])
  /\ IdentifierSets.fetch_identifier_set (Grants false true)
       (Session [SetRow (py "sample") None] []) (py "sample")
     = (Err IdentifierSets.Forbidden,
        [IdentifierSets.LogErrorForbidden InsufficientPrivilege]).
Proof.
  apply (proj2 (fetch_identifier_set_agrees_with_listing (Grants false true)
                  (Session [SetRow (py "sample") None] []) (py "sample"))).
  reflexivity.
Defined.

Lemma find_app_new (rows : list identifier_set_row) (name other : str)
    (description : option str) :
  find (fun r => str_eqb (set_name r) other)
       (rows ++ [SetRow name description])
  = match find (fun r => str_eqb (set_name r) other) rows with
    | Some r => Some r
    | None => if str_eqb name other then Some (SetRow name description) else None
    end.
Proof.
  induction rows as [|r rows IH]; simpl; [reflexivity|].
  destruct (str_eqb (set_name r) other); [reflexivity | exact IH].
Qed.

Lemma has_set_find (session : DatabaseSession) (name : str) :
  has_set session name = false ->
  find (fun r => str_eqb (set_name r) name) (identifier_set session) = None.
Proof.
  unfold has_set. intros H.
  induction (identifier_set session) as [|r rows IH]; simpl in *; [reflexivity|].
  apply orb_false_elim in H. destruct H as [H1 H2]. rewrite H1. now apply IH.
Qed.

(** Every outcome of [make_identifier_set]. *)
Lemma make_identifier_set_outcome (role : grants) (session : DatabaseSession)
    (name : str) :
  IdentifierSets.make_identifier_set role session name
  = if negb (may_insert_sets role)
    then ((Err IdentifierSets.Forbidden,
           [IdentifierSets.LogErrorForbidden InsufficientPrivilege]),
          session)
    else if has_set session name then ((Ok false, []), session)
    else ((Ok true, []),
          Session (identifier_set session ++ [SetRow name None])
                  (identifier session)).
Proof.
  unfold IdentifierSets.make_identifier_set,
    IdentifierSets.insert_identifier_set.
  destruct (may_insert_sets role); [|reflexivity].
  destruct (has_set session name); reflexivity.
Qed.

(** X10: after [make_identifier_set(name)] has returned, a role that may
    read the table of sets can fetch the set: [fetch_identifier_set(name)]
    returns a row of that name, with no description when the call created
    it; looking up any other name gives what it gave before.  The call
    returns only for a role that may insert, and has then logged
    nothing; a role that may not read is refused by the lookup, which
    logs the refusal and raises [Forbidden]. *)
Theorem make_then_fetch_identifier_set (role : grants)
    (session session' : DatabaseSession) (name : str) (created : bool)
    (log : list IdentifierSets.log_record) :
  IdentifierSets.make_identifier_set role session name
  = ((Ok created, log), session') ->
  may_insert_sets role = true
  /\ log = []
  /\ (may_select_sets role = true ->
      exists r,
        IdentifierSets.fetch_identifier_set role session' name = (Ok r, [])
        /\ set_name r = name
        /\ (created = true -> set_description r = None))
  /\ (may_select_sets role = false ->
      IdentifierSets.fetch_identifier_set role session' name
      = (Err IdentifierSets.Forbidden,
         [IdentifierSets.LogErrorForbidden InsufficientPrivilege]))
  /\ (forall other, other <> name ->
        IdentifierSets.fetch_identifier_set role session' other
        = IdentifierSets.fetch_identifier_set role session other).
Proof.
  rewrite make_identifier_set_outcome.
  destruct (may_insert_sets role) eqn:Hins; [|discriminate]. cbn [negb].
  intros H. split; [reflexivity|].
  split; [destruct (has_set session name); now injection H as _ <- _|].
  split; [|split; [intros Hsel; now apply fetch_forbidden|]].
  - intros Hsel. unfold IdentifierSets.fetch_identifier_set,
      IdentifierSets.fetch_row_by_name. rewrite Hsel.
    destruct (has_set session name) eqn:Hs; injection H as <- _ <-.
    + pose proof (find_by_name (identifier_set session) name) as Hf.
      destruct (find _ (identifier_set session)) as [r|].
      * exists r. destruct Hf as [_ Hf]. split; [reflexivity|].
        split; [exact Hf | discriminate].
      * exfalso. apply Hf. now apply has_set_In.
    + cbn [identifier_set].
      rewrite find_app_new, (has_set_find _ _ Hs), str_eqb_refl.
      eexists. split; [reflexivity|]. split; reflexivity.
  - intros other Hne. unfold IdentifierSets.fetch_identifier_set,
      IdentifierSets.fetch_row_by_name.
    destruct (may_select_sets role); [|reflexivity].
    destruct (has_set session name) eqn:Hs; injection H as _ _ <-;
      [reflexivity|].
    cbn [identifier_set]. rewrite find_app_new.
    destruct (find _ (identifier_set session)); [reflexivity|].
    assert (E : str_eqb name other = false)
      by (apply str_eqb_neq; congruence).
    now rewrite E.
Qed.

Lemma make_then_fetch_identifier_set_witness :
  exists r,
    IdentifierSets.fetch_identifier_set (Grants true true)
      (Session [SetRow (py "sample") None; SetRow (py "collection") None] [])
      (py "collection") = (Ok r, [])
    /\ set_name r = py "collection"
    /\ (true = true -> set_description r = None).
Proof.
  refine (proj1 (proj2 (proj2
            (@make_then_fetch_identifier_set (Grants true true)
               (Session [SetRow (py "sample") None] [])
               (Session [SetRow (py "sample") None;
                         SetRow (py "collection") None] [])
               (py "collection") true [] _))) _).
  - reflexivity.
  - reflexivity.
Defined.



(** ** [store_scan] *)

Section StoreScanFacts.

Variable value : Type.
Variable truthy : value -> bool.
Variable iterate : value -> option (list value).
Variable DB : Type.
Variable execute : DB -> Scans.statement value -> result Scans.pg_error DB.
Variable exit_normally : DB -> DB.
Variable exit_with_exception : DB -> DB.

(** X12: a scan document without [collection], [sample] or [aliquots] is
    refused with [BadRequest] naming the first of the three that is
    missing, in that order, whatever else it holds; the database is not
    touched and the [with session] block is not entered. *)
Theorem store_scan_missing_field (db : DB) (scan : Scans.dict value) :
  (Scans.dict_get scan (py "collection") = None
   \/ Scans.dict_get scan (py "sample") = None
   \/ Scans.dict_get scan (py "aliquots") = None) ->
  exists key,
    Scans.store_scan truthy iterate execute exit_normally exit_with_exception
      db scan
    = (Some (Scans.BadRequest (Scans.missing_field_message key)), db)
    /\ Scans.dict_get scan key = None
    /\ Scans.missing_field_message key
       = py "Required field '" ++ key
         ++ py "' is missing from the scan document"
    /\ ((key = py "collection")
        \/ (key = py "sample"
            /\ Scans.dict_get scan (py "collection") <> None)
        \/ (key = py "aliquots"
            /\ Scans.dict_get scan (py "collection") <> None
            /\ Scans.dict_get scan (py "sample") <> None)).
Proof.
  intros Hmissing. unfold Scans.store_scan.
  destruct (Scans.dict_get scan (py "collection")) as [c|] eqn:Ec.
  - destruct (Scans.dict_get scan (py "sample")) as [s|] eqn:Es.
    + destruct (Scans.dict_get scan (py "aliquots")) as [a|] eqn:Ea.
      * exfalso. destruct Hmissing as [H|[H|H]]; discriminate.
      * exists (py "aliquots"). split; [reflexivity|]. split; [exact Ea|].
        split; [reflexivity|]. right. right.
        split; [reflexivity|]. split; congruence.
    + exists (py "sample"). split; [reflexivity|]. split; [exact Es|].
      split; [reflexivity|]. right. left. split; [reflexivity | congruence].
  - exists (py "collection"). split; [reflexivity|]. split; [exact Ec|].
    split; [reflexivity|]. now left.
Qed.

(** The decorator after the inner [except]: what the caller sees. *)
Lemma catch_translate (error : Scans.pg_error) (reached : DB) :
  Scans.catch_permission_denied (Some (Scans.translate error), reached)
  = (Some (Scans.surfaced error), reached).
Proof. destruct error; reflexivity. Qed.

Lemma run_statements_app (db : DB) (first rest : list (Scans.statement value)) :
  Scans.run_statements execute db (first ++ rest)
  = match Scans.run_statements execute db first with
    | (None, reached) => Scans.run_statements execute reached rest
    | failed => failed
    end.
Proof.
  revert db. induction first as [|st first IH]; intros db; simpl; [reflexivity|].
  destruct (execute db st) as [db'|error]; [apply IH | reflexivity].
Qed.

(** The aliquot loop runs one insert per aliquot, in order, up to the
    first failure. *)
Lemma insert_aliquots_run (db : DB) (items : list value) (sample : value) :
  Scans.insert_aliquots execute db items sample
  = Scans.run_statements execute db
      (map (fun aliquot => Scans.InsertAliquot aliquot sample) items).
Proof.
  revert db. induction items as [|item items IH]; intros db; simpl; [reflexivity|].
  destruct (execute db _) as [db'|error]; [apply IH | reflexivity].
Qed.

(** The body of the [with] block, as a run of statements. *)
Lemma store_scan_body_run (db : DB) (collection sample aliquots : value) :
  Scans.store_scan_body truthy iterate execute db collection sample aliquots
  = match Scans.run_statements execute db
            (Scans.leading_statements truthy collection sample) with
    | (Some error, reached) => (Some (Scans.translate error), reached)
    | (None, reached) =>
        match iterate aliquots with
        | None => (Some Scans.TypeError, reached)
        | Some items =>
            match Scans.run_statements execute reached
                    (map (fun aliquot => Scans.InsertAliquot aliquot sample)
                         items) with
            | (Some error, reached') => (Some (Scans.translate error), reached')
            | (None, reached') => (None, reached')
            end
        end
    end.
Proof.
  unfold Scans.store_scan_body, Scans.leading_statements.
  destruct (truthy collection); cbn [app Scans.run_statements].
  - destruct (execute db _) as [db1|e1]; [|reflexivity].
    destruct (execute db1 _) as [db2|e2]; [|reflexivity].
    destruct (iterate aliquots) as [items|]; [|reflexivity].
    now rewrite insert_aliquots_run.
  - destruct (execute db _) as [db2|e2]; [|reflexivity].
    destruct (iterate aliquots) as [items|]; [|reflexivity].
    now rewrite insert_aliquots_run.
Qed.

(** X13: for a scan document with its three fields, [store_scan] runs
    the collection insert (when there is a collection), the sample insert
    and one insert per aliquot, in this order, up to the first statement
    that fails.  A [DataError] or an [IntegrityError] then leaves as
    [BadRequestDatabaseError] with the error's primary message, detail
    and context, an [InsufficientPrivilege] error leaves as [Forbidden],
    and another database error leaves as it is; aliquots that cannot be
    iterated give [TypeError] once the sample is in.  Every failure goes
    through the exception exit of the [with session] block, a complete
    run through its normal exit. *)
Theorem store_scan_translates_database_errors (db : DB)
    (scan : Scans.dict value) (collection sample aliquots : value) :
  Scans.dict_get scan (py "collection") = Some collection ->
  Scans.dict_get scan (py "sample") = Some sample ->
  Scans.dict_get scan (py "aliquots") = Some aliquots ->
  Scans.store_scan truthy iterate execute exit_normally exit_with_exception
    db scan
  = match Scans.run_statements execute db
            (Scans.leading_statements truthy collection sample) with
    | (Some error, reached) =>
        (Some (Scans.surfaced error), exit_with_exception reached)
    | (None, reached) =>
        match iterate aliquots with
        | None => (Some Scans.TypeError, exit_with_exception reached)
        | Some items =>
            match Scans.run_statements execute reached
                    (map (fun aliquot => Scans.InsertAliquot aliquot sample)
                         items) with
            | (Some error, reached') =>
                (Some (Scans.surfaced error), exit_with_exception reached')
            | (None, reached') => (None, exit_normally reached')
            end
        end
    end
  /\ (forall diag,
        Scans.surfaced (Scans.DataError diag)
        = Scans.BadRequestDatabaseError (Scans.message_primary diag)
            (Scans.message_detail diag) (Scans.context diag)
        /\ Scans.surfaced (Scans.IntegrityError diag)
           = Scans.BadRequestDatabaseError (Scans.message_primary diag)
               (Scans.message_detail diag) (Scans.context diag)
        /\ Scans.surfaced (Scans.InsufficientPrivilege diag) = Scans.Forbidden
        /\ Scans.surfaced (Scans.OtherDatabaseError diag)
           = Scans.DatabaseError (Scans.OtherDatabaseError diag))
  /\ Scans.leading_statements truthy collection sample
     = (if truthy collection then [Scans.InsertCollection collection] else [])
       ++ [Scans.InsertScanSetAndSample sample
             (if truthy collection then Some collection else None)].
Proof.
  intros Hc Hs Ha. split; [|split; [intros diag; repeat split | reflexivity]].
  unfold Scans.store_scan. rewrite Hc, Hs, Ha, store_scan_body_run.
  destruct (Scans.run_statements execute db _) as [[e|] reached].
  - apply catch_translate.
  - destruct (iterate aliquots) as [items|]; [|reflexivity].
    destruct (Scans.run_statements execute reached _) as [[e|] reached'].
    + apply catch_translate.
    + reflexivity.
Qed.

End StoreScanFacts.

Lemma store_scan_missing_field_witness :
  exists key,
    Scans.store_scan (fun v : str => negb (str_eqb v []))
      (fun v : str => Some (map (fun c => [c]) v))
      (fun (db : nat) (_ : Scans.statement str) => Ok (S db))
      (fun db => db) (fun db => db)
      7%nat [(py "collection", py "C1"); (py "aliquots", py "")]
    = (Some (Scans.BadRequest (Scans.missing_field_message key)), 7%nat)
    /\ Scans.dict_get [(py "collection", py "C1"); (py "aliquots", py "")] key
       = None
    /\ Scans.missing_field_message key
       = py "Required field '" ++ key
         ++ py "' is missing from the scan document"
    /\ ((key = py "collection")
        \/ (key = py "sample"
            /\ Scans.dict_get [(py "collection", py "C1"); (py "aliquots", py "")]
                 (py "collection") <> None)
        \/ (key = py "aliquots"
            /\ Scans.dict_get [(py "collection", py "C1"); (py "aliquots", py "")]
                 (py "collection") <> None
            /\ Scans.dict_get [(py "collection", py "C1"); (py "aliquots", py "")]
                 (py "sample") <> None)).
Proof.
  apply (@store_scan_missing_field str (fun v : str => negb (str_eqb v []))
           (fun v : str => Some (map (fun c => [c]) v)) nat
           (fun (db : nat) (_ : Scans.statement str) => Ok (S db))
           (fun db => db) (fun db => db) 7%nat
           [(py "collection", py "C1"); (py "aliquots", py "")]).
  right. left. reflexivity.
Defined.

Lemma store_scan_translates_database_errors_witness :
  Scans.store_scan (fun v : str => negb (str_eqb v []))
    (fun v : str => Some (map (fun c => [c]) v))
    (fun (db : nat) (st : Scans.statement str) =>
       match st with
       | Scans.InsertAliquot _ _ =>
           Err (Scans.IntegrityError
                  (Scans.Diag (Some (py "duplicate key")) None None))
       | _ => Ok (S db)
       end)
    (fun db => db) (fun db => (10 + db)%nat) 0%nat
    [(py "collection", py "C1"); (py "sample", py "S1");
     (py "aliquots", py "ab")]
  = (Some (Scans.BadRequestDatabaseError (Some (py "duplicate key")) None None),
     12%nat).
Proof.
  etransitivity.
  - apply (proj1 (@store_scan_translates_database_errors str
             (fun v : str => negb (str_eqb v []))
             (fun v : str => Some (map (fun c => [c]) v)) nat
             (fun (db : nat) (st : Scans.statement str) =>
                match st with
                | Scans.InsertAliquot _ _ =>
                    Err (Scans.IntegrityError
                           (Scans.Diag (Some (py "duplicate key")) None None))
                | _ => Ok (S db)
                end)
             (fun db => db) (fun db => (10 + db)%nat) 0%nat
             [(py "collection", py "C1"); (py "sample", py "S1");
              (py "aliquots", py "ab")]
             (py "C1") (py "S1") (py "ab") eq_refl eq_refl eq_refl)).
  - reflexivity.
Defined.

(** * Properties of the input loaders of [io/pandas.py] *)

Lemma endswith_iff (s suffix : str) :
  PandasIO.endswith s suffix = true <-> exists stem, s = stem ++ suffix.
Proof.
  unfold PandasIO.endswith. rewrite str_eqb_eq. split.
  - intros H. exists (firstn (length s - length suffix) s).
    pose proof (firstn_skipn (length s - length suffix) s) as F.
    rewrite H in F. now symmetry.
  - intros [stem ->]. rewrite length_app.
    replace (length stem + length suffix - length suffix)%nat
      with (length stem + 0)%nat by lia.
    rewrite skipn_app, Nat.add_0_r, skipn_all.
    replace (length stem - length stem)%nat with 0%nat by lia.
    reflexivity.
Qed.

(** Two suffixes of one length cannot both end a name unless equal. *)
Lemma endswith_same_length (s a b : str) :
  length a = length b -> PandasIO.endswith s a = true ->
  PandasIO.endswith s b = str_eqb a b.
Proof.
  unfold PandasIO.endswith. intros Hlen H. apply str_eqb_eq in H.
  now rewrite <- Hlen, H.
Qed.

Lemma endswith_last (s a b : str) (x y : N) :
  PandasIO.endswith s (a ++ [x]) = true -> x <> y ->
  PandasIO.endswith s (b ++ [y]) = false.
Proof.
  intros Ha Hne. destruct (PandasIO.endswith s (b ++ [y])) eqn:Eb; [|reflexivity].
  apply endswith_iff in Ha, Eb. destruct Ha as [p ->]. destruct Eb as [q Eq].
  rewrite !app_assoc in Eq. apply app_inj_tail in Eq. now destruct Eq.
Qed.

(** X14: [load_file_as_dataframe] goes by the end of the file name, case
    and all: [stem.tsv] is read by [pd.read_csv] with a tab separator,
    [stem.csv] with a comma, [stem.xls] and [stem.xlsx] by [read_excel],
    and a name with none of the four endings raises
    [UnsupportedFileExtensionError] for that name.
    [load_input_from_file_or_stdin] reads the file object itself, as
    comma-separated values, exactly when its name is ["<stdin>"], and goes
    by the name otherwise. *)
Theorem load_file_goes_by_extension (filename : str) :
  (forall stem, filename = stem ++ py ".tsv" ->
     PandasIO.load_file_as_dataframe filename
     = Ok (PandasIO.ReadCsv (PandasIO.Path filename) (Some PandasIO.tab)))
  /\ (forall stem, filename = stem ++ py ".csv" ->
        PandasIO.load_file_as_dataframe filename
        = Ok (PandasIO.ReadCsv (PandasIO.Path filename) (Some PandasIO.comma)))
  /\ (forall stem, filename = stem ++ py ".xls" \/ filename = stem ++ py ".xlsx" ->
        PandasIO.load_file_as_dataframe filename
        = Ok (PandasIO.ReadExcel filename))
  /\ ((forall stem extension,
          In extension [py ".csv"; py ".tsv"; py ".xls"; py ".xlsx"] ->
          filename <> stem ++ extension) ->
      PandasIO.load_file_as_dataframe filename
      = Err (PandasIO.UnsupportedFileExtensionError filename))
  /\ PandasIO.load_input_from_file_or_stdin (py "<stdin>")
     = Ok (PandasIO.ReadCsv (PandasIO.FileObject (py "<stdin>")) None)
  /\ (filename <> py "<stdin>" ->
      PandasIO.load_input_from_file_or_stdin filename
      = PandasIO.load_file_as_dataframe filename).
Proof.
  assert (Htsv : PandasIO.endswith filename (py ".tsv") = true ->
                 PandasIO.load_file_as_dataframe filename
                 = Ok (PandasIO.ReadCsv (PandasIO.Path filename)
                         (Some PandasIO.tab))).
  { intros H. unfold PandasIO.load_file_as_dataframe, PandasIO.endswith_any.
    cbn [existsb]. rewrite H, !orb_true_r. reflexivity. }
  assert (Hcsv : PandasIO.endswith filename (py ".csv") = true ->
                 PandasIO.load_file_as_dataframe filename
                 = Ok (PandasIO.ReadCsv (PandasIO.Path filename)
                         (Some PandasIO.comma))).
  { intros H. unfold PandasIO.load_file_as_dataframe, PandasIO.endswith_any.
    cbn [existsb].
    rewrite (@endswith_same_length filename (py ".csv") (py ".tsv") eq_refl H).
    rewrite H. reflexivity. }
  assert (Hxls : PandasIO.endswith filename (py ".xls") = true
                 \/ PandasIO.endswith filename (py ".xlsx") = true ->
                 PandasIO.load_file_as_dataframe filename
                 = Ok (PandasIO.ReadExcel filename)).
  { intros H. unfold PandasIO.load_file_as_dataframe, PandasIO.endswith_any.
    cbn [existsb].
    assert (Ec : PandasIO.endswith filename (py ".csv") = false
                 /\ PandasIO.endswith filename (py ".tsv") = false).
    { destruct H as [H|H].
      - rewrite (@endswith_same_length filename (py ".xls") (py ".csv") eq_refl H).
        rewrite (@endswith_same_length filename (py ".xls") (py ".tsv") eq_refl H).
        split; reflexivity.
      - split.
        + apply (@endswith_last filename (py ".xls") (py ".cs") 120%N 118%N);
            [exact H | discriminate].
        + apply (@endswith_last filename (py ".xls") (py ".ts") 120%N 118%N);
            [exact H | discriminate]. }
    destruct Ec as [-> ->]. cbn [orb].
    destruct H as [-> | ->]; [reflexivity | now rewrite !orb_true_r]. }
  split; [|split; [|split; [|split; [|split]]]].
  - intros stem H. apply Htsv, endswith_iff. now exists stem.
  - intros stem H. apply Hcsv, endswith_iff. now exists stem.
  - intros stem [H|H]; apply Hxls; [left | right]; apply endswith_iff;
      now exists stem.
  - intros Hnone.
    assert (Hno : forall extension,
               In extension [py ".csv"; py ".tsv"; py ".xls"; py ".xlsx"] ->
               PandasIO.endswith filename extension = false).
    { intros extension Hin.
      destruct (PandasIO.endswith filename extension) eqn:E; [|reflexivity].
      apply endswith_iff in E. destruct E as [stem E].
      exfalso. now apply (Hnone stem extension Hin). }
    unfold PandasIO.load_file_as_dataframe, PandasIO.endswith_any.
    cbn [existsb].
    rewrite !Hno by (simpl; tauto). reflexivity.
  - reflexivity.
  - intros Hne. unfold PandasIO.load_input_from_file_or_stdin.
    apply str_eqb_neq in Hne. now rewrite Hne.
Qed.

Lemma load_file_goes_by_extension_witness :
  PandasIO.load_file_as_dataframe (py "data.csv.tsv")
  = Ok (PandasIO.ReadCsv (PandasIO.Path (py "data.csv.tsv"))
          (Some PandasIO.tab)).
Proof.
  apply (proj1 (load_file_goes_by_extension (py "data.csv.tsv"))
           (py "data.csv")).
  reflexivity.
Defined.

(** * Properties of the command wrappers *)

Section CommandFacts.

Variable E : Type.
Variable confirm : string -> bool.

(** X15: whatever the command did, [with_database_session] lets its
    outcome through unchanged (an exception is raised again, never
    swallowed) and ends with exactly one call of [db.commit()] or
    [db.rollback()], as its last step.  It commits when the action is
    ["commit"], or is ["prompt"] and the question asked is confirmed, also
    after the command has failed; with any other action, the dry run
    included, it rolls back, also after the command has succeeded. *)
Theorem with_database_session_finishes_once (action : str)
    (command_outcome : option (Command.raised E)) :
  let question :=
    match command_outcome with
    | None => "Commit all changes?"%string
    | Some _ =>
        "Commit successfully processed records up to this point?"%string
    end in
  exists before final,
    Command.with_database_session confirm action command_outcome
    = (before ++ [final], command_outcome)
    /\ ~ In Command.DbCommit before
    /\ ~ In Command.DbRollback before
    /\ (action = py "prompt" <-> In (Command.Confirm question) before)
    /\ ((action = py "commit"
         \/ (action = py "prompt" /\ confirm question = true))
        /\ final = Command.DbCommit
        \/ (~ (action = py "commit"
               \/ (action = py "prompt" /\ confirm question = true)))
           /\ final = Command.DbRollback).
Proof.
  intros question. unfold Command.with_database_session.
  assert (Hq : (if match match command_outcome with
                         | None => Some true
                         | Some (Command.OfException _) => Some false
                         | Some (Command.OfBaseException _) => None
                         end with
                   | Some true => true
                   | _ => false
                   end
                then "Commit all changes?"%string
                else "Commit successfully processed records up to this point?"%string)
               = question).
  { unfold question. destruct command_outcome as [[e|e]|]; reflexivity. }
  rewrite Hq. clear Hq.
  set (handler := match command_outcome with
                  | Some (Command.OfException error) =>
                      [Command.LogErrorAborting error]
                  | _ => []
                  end).
  set (committing := Command.LogInfo _).
  set (rolling := Command.LogInfo _).
  assert (Hh : forall x : Command.event E,
             In x handler -> exists e, x = Command.LogErrorAborting e).
  { intros x. unfold handler.
    destruct command_outcome as [[e|e]|]; simpl; try tauto.
    intros [<-|[]]. now exists e. }
  assert (Hlog : forall (x : Command.event E) l,
             (forall e, x <> Command.LogErrorAborting e) ->
             (forall y, In y l -> x <> y) -> ~ In x (handler ++ l)).
  { intros x l Hx Hl Hin. apply in_app_or in Hin. destruct Hin as [Hin|Hin].
    - destruct (Hh x Hin) as [e He]. now apply (Hx e).
    - now apply (Hl x Hin). }
  destruct (str_eqb action (py "prompt")) eqn:Ep.
  - apply str_eqb_eq in Ep.
    assert (Hnc : action <> py "commit") by (rewrite Ep; discriminate).
    assert (Hasked : In (Command.Confirm question)
                        (handler ++ [Command.Confirm question]))
      by (apply in_or_app; right; now left).
    destruct (confirm question) eqn:Ec.
    + exists (handler ++ [Command.Confirm question; committing]), Command.DbCommit.
      split; [now rewrite <- !app_assoc|].
      split; [apply Hlog; [discriminate|];
              intros y [<-|[<-|[]]]; discriminate|].
      split; [apply Hlog; [discriminate|];
              intros y [<-|[<-|[]]]; discriminate|].
      split.
      * split; [intros _|intros _; exact Ep].
        apply in_or_app. right. now left.
      * left. split; [right; now split | reflexivity].
    + exists (handler ++ [Command.Confirm question; rolling]), Command.DbRollback.
      split; [now rewrite <- !app_assoc|].
      split; [apply Hlog; [discriminate|];
              intros y [<-|[<-|[]]]; discriminate|].
      split; [apply Hlog; [discriminate|];
              intros y [<-|[<-|[]]]; discriminate|].
      split.
      * split; [intros _|intros _; exact Ep].
        apply in_or_app. right. now left.
      * right. split; [|reflexivity].
        intros [H|[_ H]]; [contradiction | congruence].
  - apply str_eqb_neq in Ep.
    destruct (str_eqb action (py "commit")) eqn:Ecm.
    + apply str_eqb_eq in Ecm.
      exists (handler ++ [committing]), Command.DbCommit.
      split; [now rewrite <- !app_assoc|].
      split; [apply Hlog; [discriminate|]; intros y [<-|[]]; discriminate|].
      split; [apply Hlog; [discriminate|]; intros y [<-|[]]; discriminate|].
      split.
      * split; [contradiction|]. intros Hin. exfalso. revert Hin.
        apply Hlog; [discriminate|]. intros y [<-|[]]. discriminate.
      * left. split; [now left | reflexivity].
    + apply str_eqb_neq in Ecm.
      exists (handler ++ [rolling]), Command.DbRollback.
      split; [now rewrite <- !app_assoc|].
      split; [apply Hlog; [discriminate|]; intros y [<-|[]]; discriminate|].
      split; [apply Hlog; [discriminate|]; intros y [<-|[]]; discriminate|].
      split.
      * split; [contradiction|]. intros Hin. exfalso. revert Hin.
        apply Hlog; [discriminate|]. intros y [<-|[]]. discriminate.
      * right. split; [|reflexivity]. intros [H|[H _]]; contradiction.
Qed.

(** X16: [upload] commits complete copies only.  It returns normally
    exactly when both the copy and the commit went through, and then it
    never called [db.rollback()]; when either raised, its last step is
    [db.rollback()] and the same exception is raised again;
    [db.commit()] is never called after a failed copy. *)
Theorem upload_commits_complete_copies_only (file_name : str)
    (copy_outcome : result (Command.raised E) nat)
    (commit_outcome : option (Command.raised E)) :
  exists events result,
    Command.upload file_name copy_outcome commit_outcome = (events, result)
    /\ (result = None <->
        (exists row_count, copy_outcome = Ok row_count) /\ commit_outcome = None)
    /\ (result = None ->
        last events Command.DbRollback = Command.DbCommit
        /\ ~ In Command.DbRollback events)
    /\ (forall error, result = Some error ->
        last events Command.DbCommit = Command.DbRollback
        /\ (copy_outcome = Err error
            \/ (exists row_count, copy_outcome = Ok row_count)
               /\ commit_outcome = Some error))
    /\ (In Command.DbCommit events <-> exists row_count, copy_outcome = Ok row_count).
Proof.
  unfold Command.upload.
  destruct copy_outcome as [n|e]; [destruct commit_outcome as [e|]|];
    do 2 eexists; (split; [reflexivity|]).
  - split; [split; [discriminate | intros [_ H]; discriminate]|].
    split; [discriminate|]. split.
    + intros error [= <-]. split; [reflexivity|]. right. split; [now exists n | reflexivity].
    + split; [intros _; now exists n | intros _; simpl; tauto].
  - split; [split; [intros _; split; [now exists n | reflexivity] | reflexivity]|].
    split; [intros _; split; [reflexivity | simpl; intuition discriminate]|].
    split; [discriminate|].
    split; [intros _; now exists n | intros _; simpl; tauto].
  - split; [split; [discriminate | intros [[n H] _]; discriminate]|].
    split; [discriminate|]. split.
    + intros error [= <-]. split; [reflexivity | now left].
    + split; [simpl; intuition discriminate | intros [n H]; discriminate].
Qed.

End CommandFacts.
